(** * Verification of the Polymarket synthetic-bond trading bot

    A shallow embedding of [src/trading_bot.py] and the properties stated
    about it: the contract resolver ([get_token_ids]), the order-book
    analyzer ([analyze_ob]), the eligibility filter ([filter_markets]), the
    opportunity ranker ([find_opps]), the sizer/executor ([place_trade]), the
    position ledger ([load_positions], [save_positions]) and the execution
    loop of [run_cycle].

    Modelling conventions.
    - Values decoded from JSON are the inductive [pyval]; a Python [dict]
      with string keys is a [gmap string pyval].
    - A Python [str] is a Rocq [string] read as a sequence of code points
      below 256.
    - A Python [float] is the rational it denotes ([Q]); rounding, NaN and
      the infinities are outside the model.  Numbers are compared with
      [Qle_bool] and [Qeq].
    - A bare [except:] is modelled by functions into [option]: [None] is
      "an exception was raised in the protected block".
    - Library and remote calls ([json.loads], [float] on a string,
      [datetime.fromisoformat], the exchange client, the balance lookup)
      are parameters of the development. *)

From Stdlib Require Import ZArith QArith List Ascii String Bool Lia Lqa.
From Stdlib Require Import Qminmax Permutation Sorted.
From stdpp Require Import gmap strings pretty.

Set Warnings "-register-all".

(** ** Python values *)

Inductive pyval : Type :=
| PNone
| PBool (b : bool)
| PInt (z : Z)
| PFloat (q : Q)
| PStr (s : string)
| PList (l : list pyval)
| PDict (d : gmap string pyval).

(** [bool(v)]: the truth value Python gives to [v] in [if not v]. *)
Definition truthy (v : pyval) : bool :=
  match v with
  | PNone => false
  | PBool b => b
  | PInt z => negb (Z.eqb z 0)
  | PFloat q => negb (Qeq_bool q 0)
  | PStr s => negb (String.eqb s EmptyString)
  | PList l => match l with [] => false | _ :: _ => true end
  | PDict d => negb (Nat.eqb (size d) 0)
  end.

(** [d.get(k)]: [None] when the key is absent. *)
Definition py_get (d : gmap string pyval) (k : string) : pyval :=
  default PNone (d !! k).

(** [len(v)], [None] when Python raises [TypeError]. *)
Definition py_len (v : pyval) : option nat :=
  match v with
  | PList l => Some (length l)
  | PStr s => Some (String.length s)
  | PDict d => Some (size d)
  | _ => None
  end.

(** The one-character strings of [s], as iteration over a [str] yields. *)
Fixpoint chars (s : string) : list pyval :=
  match s with
  | EmptyString => []
  | String c r => PStr (String c EmptyString) :: chars r
  end.

(** The items [for x in v] visits, [None] when [v] is not iterable. *)
Definition py_iter (v : pyval) : option (list pyval) :=
  match v with
  | PList l => Some l
  | PStr s => Some (chars s)
  | PDict d => Some (PStr <$> (map_to_list d).*1)
  | _ => None
  end.

(** [v[i]] for an integer index [i], [None] when Python raises (out of
    range, a dict without that key, a value that is not subscriptable). *)
Definition py_getitem (v : pyval) (i : nat) : option pyval :=
  match v with
  | PList l => l !! i
  | PStr s => match String.get i s with
              | Some c => Some (PStr (String c EmptyString))
              | None => None
              end
  | _ => None
  end.

(** [c.lower()] on one code point below 256: the ASCII capitals and the
    Latin-1 capitals (U+00C0 to U+00DE, U+00D7 excepted) move by 32. *)
Definition lower_char (c : ascii) : ascii :=
  let n := nat_of_ascii c in
  if (Nat.leb 65 n && Nat.leb n 90)
     || (Nat.leb 192 n && Nat.leb n 222 && negb (Nat.eqb n 215))
  then ascii_of_nat (n + 32) else c.

(** [s.lower()]. *)
Fixpoint lower (s : string) : string :=
  match s with
  | EmptyString => EmptyString
  | String c r => String (lower_char c) (lower r)
  end.

(** [v.lower()], [None] when [v] is not a [str] ([AttributeError]). *)
Definition py_lower (v : pyval) : option string :=
  match v with
  | PStr s => Some (lower s)
  | _ => None
  end.

(** [s.replace(old, new)] for a one-character [old]. *)
Fixpoint replace_char (old : ascii) (new : string) (s : string) : string :=
  match s with
  | EmptyString => EmptyString
  | String c r =>
      if Ascii.eqb c old then new +:+ replace_char old new r
      else String c (replace_char old new r)
  end.

(** ** A decoder for a fragment of JSON

    [json_loads_subset] decodes JSON texts built from [null], [true],
    [false], integers, strings without escapes, arrays and objects; on
    such texts it returns what [json.loads] returns.  It is used to run the
    development on concrete texts; the general results below hold for any
    decoder. *)

Definition dquote : ascii := ascii_of_nat 34.
Definition backslash : ascii := ascii_of_nat 92.

(** Concrete JSON texts are written with an apostrophe for each double
    quote: [jtext "['a']"] is the four-character array text holding the
    string a. *)
Definition jtext (s : string) : string :=
  replace_char "'" (String dquote EmptyString) s.

Definition is_ws (c : ascii) : bool :=
  let n := nat_of_ascii c in
  Nat.eqb n 32 || Nat.eqb n 9 || Nat.eqb n 10 || Nat.eqb n 13.

Fixpoint skip_ws (s : list ascii) : list ascii :=
  match s with
  | c :: r => if is_ws c then skip_ws r else s
  | [] => []
  end.

Definition digit_of (c : ascii) : option Z :=
  let n := nat_of_ascii c in
  if Nat.leb 48 n && Nat.leb n 57 then Some (Z.of_nat (n - 48)) else None.

(** The longest prefix of digits, most significant first. *)
Fixpoint take_digits (s : list ascii) : list Z * list ascii :=
  match s with
  | c :: r =>
      match digit_of c with
      | Some d => let '(ds, rest) := take_digits r in (d :: ds, rest)
      | None => ([], s)
      end
  | [] => ([], [])
  end.

Definition digits_value (ds : list Z) : Z :=
  fold_left (fun acc d => (10 * acc + d)%Z) ds 0%Z.

(** A JSON number must not continue with a fraction or an exponent here. *)
Definition number_ends (s : list ascii) : bool :=
  match s with
  | c :: _ => negb (Ascii.eqb c "." || Ascii.eqb c "e" || Ascii.eqb c "E")
  | [] => true
  end.

Definition parse_nat_lit (s : list ascii) : option (Z * list ascii) :=
  match take_digits s with
  | ([], _) => None
  | (0%Z :: _ :: _, _) => None
  | (ds, rest) => if number_ends rest then Some (digits_value ds, rest) else None
  end.

(** The characters of a string literal up to its closing quote. *)
Fixpoint parse_string_body (s : list ascii) : option (string * list ascii) :=
  match s with
  | [] => None
  | c :: r =>
      if Ascii.eqb c dquote then Some (EmptyString, r)
      else if Ascii.eqb c backslash then None
      else if Nat.ltb (nat_of_ascii c) 32 then None
      else match parse_string_body r with
           | Some (body, rest) => Some (String c body, rest)
           | None => None
           end
  end.

Definition expect (word : list ascii) (v : pyval) (s : list ascii)
  : option (pyval * list ascii) :=
  if bool_decide (take (length word) s = word)
  then Some (v, drop (length word) s) else None.

Fixpoint parse_value (fuel : nat) (s : list ascii) {struct fuel}
  : option (pyval * list ascii) :=
  match fuel with
  | O => None
  | S fuel' =>
      match skip_ws s with
      | [] => None
      | c :: r =>
          if Ascii.eqb c "n" then expect (list_ascii_of_string "null") PNone (c :: r)
          else if Ascii.eqb c "t" then expect (list_ascii_of_string "true") (PBool true) (c :: r)
          else if Ascii.eqb c "f" then expect (list_ascii_of_string "false") (PBool false) (c :: r)
          else if Ascii.eqb c dquote then
            match parse_string_body r with
            | Some (body, rest) => Some (PStr body, rest)
            | None => None
            end
          else if Ascii.eqb c "-" then
            match parse_nat_lit r with
            | Some (n, rest) => Some (PInt (- n), rest)
            | None => None
            end
          else if Ascii.eqb c "[" then
            match skip_ws r with
            | c' :: r' =>
                if Ascii.eqb c' "]" then Some (PList [], r')
                else match parse_items fuel' (c' :: r') [] with
                     | Some (items, rest) => Some (PList items, rest)
                     | None => None
                     end
            | [] => None
            end
          else if Ascii.eqb c "{" then
            match skip_ws r with
            | c' :: r' =>
                if Ascii.eqb c' "}" then Some (PDict ∅, r')
                else match parse_members fuel' (c' :: r') ∅ with
                     | Some (d, rest) => Some (PDict d, rest)
                     | None => None
                     end
            | [] => None
            end
          else
            match parse_nat_lit (c :: r) with
            | Some (n, rest) => Some (PInt n, rest)
            | None => None
            end
      end
  end
with parse_items (fuel : nat) (s : list ascii) (acc : list pyval) {struct fuel}
  : option (list pyval * list ascii) :=
  match fuel with
  | O => None
  | S fuel' =>
      match parse_value fuel' s with
      | Some (v, rest) =>
          match skip_ws rest with
          | c :: r =>
              if Ascii.eqb c "," then parse_items fuel' r (acc ++ [v])
              else if Ascii.eqb c "]" then Some (acc ++ [v], r)
              else None
          | [] => None
          end
      | None => None
      end
  end
with parse_members (fuel : nat) (s : list ascii) (acc : gmap string pyval)
  {struct fuel} : option (gmap string pyval * list ascii) :=
  match fuel with
  | O => None
  | S fuel' =>
      match skip_ws s with
      | c :: r =>
          if Ascii.eqb c dquote then
            match parse_string_body r with
            | Some (key, rest) =>
                match skip_ws rest with
                | c1 :: r1 =>
                    if Ascii.eqb c1 ":" then
                      match parse_value fuel' r1 with
                      | Some (v, rest') =>
                          match skip_ws rest' with
                          | c2 :: r2 =>
                              if Ascii.eqb c2 "," then parse_members fuel' r2 (<[key := v]> acc)
                              else if Ascii.eqb c2 "}" then Some (<[key := v]> acc, r2)
                              else None
                          | [] => None
                          end
                      | None => None
                      end
                    else None
                | [] => None
                end
            | None => None
            end
          else None
      | [] => None
      end
  end.

Definition json_loads_subset (text : string) : option pyval :=
  let s := list_ascii_of_string text in
  match parse_value (2 * length s + 2) s with
  | Some (v, rest) => match skip_ws rest with [] => Some v | _ :: _ => None end
  | None => None
  end.

(** ** Numbers *)

Definition Qlt_bool (x y : Q) : bool := negb (Qle_bool y x).

(** [float(s)] on decimal literals: an optional sign, digits, and an
    optional fraction.  It returns what Python's [float] denotes on such
    texts and is used to run the development on concrete prices. *)
Definition float_of_decimal (text : string) : option Q :=
  let s := list_ascii_of_string text in
  let '(neg, body) :=
    match s with
    | c :: r => if Ascii.eqb c "-" then (true, r)
                else if Ascii.eqb c "+" then (false, r) else (false, s)
    | [] => (false, [])
    end in
  let sign (q : Q) : Q := if neg then Qopp q else q in
  match take_digits body with
  | ([], _) => None
  | (ds, []) => Some (sign (inject_Z (digits_value ds)))
  | (ds, c :: r) =>
      if Ascii.eqb c "." then
        match take_digits r with
        | (fs, []) =>
            Some (sign (Qmake (digits_value (ds ++ fs)) (Z.to_pos (10 ^ Z.of_nat (length fs)))))
        | _ => None
        end
      else None
  end.

(** ** Time *)

(** A [datetime]: aware of its offset (an instant, in seconds since the
    epoch) or naive (a wall-clock reading). *)
Inductive datetime : Type :=
| Aware (t : Q)
| Naive (t : Q).

(** [end_dt - now] for an aware [now]; mixing naive and aware raises. *)
Definition seconds_until (now : Q) (end_dt : datetime) : option Q :=
  match end_dt with
  | Aware t => Some (t - now)%Q
  | Naive _ => None
  end.

(** Days from 1970-01-01 to the civil date [y]-[m]-[d]. *)
Definition days_from_civil (y m d : Z) : Z :=
  let y' := if (m <=? 2)%Z then (y - 1)%Z else y in
  let era := (y' / 400)%Z in
  let yoe := (y' - era * 400)%Z in
  let mp := if (m >? 2)%Z then (m - 3)%Z else (m + 9)%Z in
  let doy := ((153 * mp + 2) / 5 + d - 1)%Z in
  let doe := (yoe * 365 + yoe / 4 - yoe / 100 + doy)%Z in
  (era * 146097 + doe - 719468)%Z.

Definition days_in_month (y m : Z) : Z :=
  if (m =? 2)%Z then
    if ((y mod 4 =? 0) && (negb (y mod 100 =? 0) || (y mod 400 =? 0)))%Z then 29%Z else 28%Z
  else if ((m =? 4) || (m =? 6) || (m =? 9) || (m =? 11))%Z then 30%Z else 31%Z.

(** Exactly [n] digits, read as a number. *)
Definition fixed_digits (n : nat) (s : list ascii) : option (Z * list ascii) :=
  match take_digits (take n s) with
  | (ds, []) => if Nat.eqb (length ds) n then Some (digits_value ds, drop n s) else None
  | _ => None
  end.

Definition expect_char (c : ascii) (s : list ascii) : option (list ascii) :=
  match s with
  | c' :: r => if Ascii.eqb c c' then Some r else None
  | [] => None
  end.

(** [datetime.fromisoformat] on texts of the shape [YYYY-MM-DDTHH:MM:SS],
    alone (naive) or followed by an offset [+HH:MM] or [-HH:MM] (aware). *)
Definition fromisoformat_subset (text : string) : option datetime :=
  '(y, s) ← fixed_digits 4 (list_ascii_of_string text);
  s ← expect_char "-" s;
  '(mo, s) ← fixed_digits 2 s;
  s ← expect_char "-" s;
  '(d, s) ← fixed_digits 2 s;
  s ← expect_char "T" s;
  '(h, s) ← fixed_digits 2 s;
  s ← expect_char ":" s;
  '(mi, s) ← fixed_digits 2 s;
  s ← expect_char ":" s;
  '(sec, s) ← fixed_digits 2 s;
  if ((1 <=? y) && (1 <=? mo) && (mo <=? 12) && (1 <=? d) && (d <=? days_in_month y mo)
      && (h <=? 23) && (mi <=? 59) && (sec <=? 59))%Z then
    let wall := (days_from_civil y mo d * 86400 + h * 3600 + mi * 60 + sec)%Z in
    match s with
    | [] => Some (Naive (inject_Z wall))
    | c :: r =>
        '(oh, r) ← fixed_digits 2 r;
        r ← expect_char ":" r;
        '(om, r) ← fixed_digits 2 r;
        match r with
        | [] =>
            if ((oh <=? 23) && (om <=? 59))%Z then
              let off := (oh * 3600 + om * 60)%Z in
              if Ascii.eqb c "+" then Some (Aware (inject_Z (wall - off)))
              else if Ascii.eqb c "-" then Some (Aware (inject_Z (wall + off)))
              else None
            else None
        | _ :: _ => None
        end
    end
  else None.

(** ** Bot configuration (module-level constants of the source) *)

Definition SCAN_INTERVAL_MINUTES : Z := 30.
Definition MIN_VOLUME : Q := 10000.
Definition MIN_DEPTH : Q := 50.
Definition MAX_SPREAD : Q := 0.05.
Definition MIN_YIELD : Q := 0.01.
Definition MIN_HOURS : Q := 12.
Definition MAX_HOURS : Q := 48.
Definition POSITION_SIZE_PCT : Q := 0.10.
Definition MAX_POSITION_SIZE : Q := 10.

(** The dict [{'yes': ..., 'no': ...}] built by [get_token_ids]. *)
Record ContractRef : Type := { yes : option string; no : option string }.

Definition null_ref : ContractRef := {| yes := None; no := None |}.

(** One resting order as the client returns it: [a.price], [a.size]. *)
Record Level : Type := { lv_price : pyval; lv_size : pyval }.

(** The order book object; a side that is [None] or empty is [[]]. *)
Record Book : Type := { asks : list Level; bids : list Level }.

(** The dict returned by [analyze_ob]. *)
Record Summary : Type := { ask : Q; bid : Q; spread : Q; depth : Q }.

(** A market that [find_opps] appended to [opps]: the market dict together
    with the four entries written just before the append ([m['_ob']],
    [m['_tids']], [m['_yield']], [m['_price']]). *)
Record Opp : Type := {
  market : gmap string pyval;
  _ob : Summary;
  _tids : ContractRef;
  _yield : Q;
  _price : Q
}.

(** The arguments of [OrderArgs(...)]. *)
Record OrderArgs : Type := {
  token_id : option string;
  o_price : Q;
  o_size : Q;
  side : string;
  fee_rate_bps : Z
}.

(** The in-memory ledger [positions]: a dict whose keys are the values
    [tids['no']] takes, [None] or a [str]. *)
Abbreviation Ledger := (gmap (option string) pyval).

(** What [POSITIONS_FILE] holds: nothing, something [open] cannot read, or
    a text. *)
Inductive FileState : Type :=
| Absent
| Unreadable
| Content (text : string).

(** The calls that leave the process during the execution loop. *)
Inductive Event : Type :=
| EvOrder (order : OrderArgs) (result : option pyval)
| EvSave (ledger : Ledger)
| EvBalance (b : Q).

(** The state the bot acts on: the remote state [exchange] (exchange,
    chain and clock, of a type left open), the ledger file, and the calls
    made so far, oldest first. *)
Record World (Exchange : Type) : Type := {
  exchange : Exchange;
  positions_file : FileState;
  trace : list Event
}.
Arguments exchange {_} _.
Arguments positions_file {_} _.
Arguments trace {_} _.
Arguments Build_World {_} _ _ _.

(** The local variables of the execution loop of [run_cycle]. *)
Record CycleState (Exchange : Type) : Type := {
  positions : Ledger;
  balance : Q;
  trades : nat;
  world : World Exchange
}.
Arguments positions {_} _.
Arguments balance {_} _.
Arguments trades {_} _.
Arguments world {_} _.
Arguments Build_CycleState {_} _ _ _ _.

(** ** Concrete data

    Inputs on which the development is run. *)

(** A stand-in for [str] on floats and containers; never reached below. *)
Definition demo_repr (v : pyval) : string := "<repr>".

(** A market dict holding the two serialized arrays. *)
Definition market_of (tokens outcomes : string) : gmap string pyval :=
  <["clobTokenIds" := PStr (jtext tokens)]>
    (<["outcomes" := PStr (jtext outcomes)]> ∅).

(** A resting order with its price and size as the texts the client
    carries. *)
Definition level (p s : string) : Level :=
  {| lv_price := PStr p; lv_size := PStr s |}.

(** The books of a small exchange: contract 222 quotes 0.94 / 0.95,
    contract 444 quotes 0.95 / 0.96, contract 555 quotes 0.93 / 0.95,
    contract 777 is crossed (best bid
    0.75 above best ask 0.5), contract 888 has no asks. *)
Definition demo_books (tid : string) : option Book :=
  if String.eqb tid "222" then
    Some {| asks := [level "0.97" "40"; level "0.95" "100"];
            bids := [level "0.94" "100"; level "0.5" "30"] |}
  else if String.eqb tid "444" then
    Some {| asks := [level "0.96" "80"]; bids := [level "0.95" "60"] |}
  else if String.eqb tid "555" then
    Some {| asks := [level "0.95" "70"]; bids := [level "0.93" "60"] |}
  else if String.eqb tid "777" then
    Some {| asks := [level "0.5" "10"]; bids := [level "0.75" "10"] |}
  else if String.eqb tid "888" then
    Some {| asks := []; bids := [level "0.94" "100"] |}
  else None.

(** The state of the small exchange: the number of orders it accepted. *)
Definition demo_get_order_book (n : nat) (tid : string) : nat * option Book :=
  (n, demo_books tid).

(** The world the small exchange starts in: no order accepted, no ledger
    file, nothing traced. *)
Definition demo_world : World nat :=
  {| exchange := 0; positions_file := Absent; trace := [] |}.

(** The current time of the runs below: 2026-11-03T12:00:00Z. *)
Definition demo_now : Q := 1793707200.

(** A market dict with a question, an end date, a 24-hour volume and the
    two serialized arrays. *)
Definition demo_market (question end_date : string) (volume : pyval)
    (tokens outcomes : string) : gmap string pyval :=
  <["question" := PStr question]>
    (<["endDate" := PStr end_date]>
       (<["volume24hr" := volume]> (market_of tokens outcomes))).

(** Three eligible markets, in catalog order, whose "no" contracts are
    444, 222 and 555. *)
Definition demo_markets : list (gmap string pyval) :=
  [ demo_market "A?" "2026-11-04T12:00:00Z" (PInt 50000)
      "['333', '444']" "['Yes', 'No']";
    demo_market "B?" "2026-11-04T12:00:00Z" (PInt 50000)
      "['111', '222']" "['Yes', 'No']";
    demo_market "C?" "2026-11-04T12:00:00Z" (PInt 50000)
      "['555', '666']" "['No', 'Yes']" ].

(** The small exchange accepts every order and numbers it. *)
Definition demo_submit_order (n : nat) (order : OrderArgs) : nat * option pyval :=
  (S n, Some (PStr ("order-" +:+ pretty n))).

(** The wallet of the runs below holds 100 less 10 per accepted order. *)
Definition demo_read_balance (n : nat) : nat * Q :=
  (n, 100 - 10 * inject_Z (Z.of_nat n))%Q.

Definition demo_now_isoformat (n : nat) : string := "2026-11-03T12:00:00".

(** A stand-in for the text [json.dump] writes. *)
Definition demo_json_dumps (ledger : Ledger) : string :=
  "<" +:+ pretty (size ledger) +:+ " positions>".

(** The opportunity the ranker builds for contract 222 quoted 0.94 / 0.95
    with a depth of 100. *)
Definition demo_opp : Opp :=
  {| market := demo_market "B?" "2026-11-04T12:00:00Z" (PInt 50000)
                 "['111', '222']" "['Yes', 'No']";
     _ob := {| ask := 0.95; bid := 0.94; spread := 0.95 - 0.94; depth := 100 |};
     _tids := {| yes := Some "111"; no := Some "222" |};
     _yield := (1 - 0.95) / 0.95;
     _price := 0.95 |}.

(** Two catalog entries for the same pair of contracts. *)
Definition demo_markets_twice : list (gmap string pyval) :=
  [ demo_market "B?" "2026-11-04T12:00:00Z" (PInt 50000)
      "['111', '222']" "['Yes', 'No']";
    demo_market "B again?" "2026-11-04T18:00:00Z" (PInt 60000)
      "['111', '222']" "['Yes', 'No']" ].

(** A book with an ask whose price is not a number. *)
Definition demo_get_order_book_garbled (n : nat) (tid : string)
  : nat * option Book :=
  (n, Some {| asks := [level "0.95" "100"; level "n/a" "10"];
              bids := [level "0.94" "100"] |}).


(** A catalog of 230 entries, and three ways of serving a catalog: in
    pages of 100 from the offset asked for; the same, failing from offset
    200 on; and the first page whatever the offset. *)
Definition demo_big_catalog : list pyval :=
  (fun i => PInt (Z.of_nat i)) <$> seq 0 230.

Definition demo_http_get (catalog : list pyval) (n : nat) (offset : nat)
  : nat * option pyval :=
  (n, Some (PList (take 100 (drop offset catalog)))).

Definition demo_http_get_flaky (catalog : list pyval) (n : nat) (offset : nat)
  : nat * option pyval :=
  if Nat.ltb offset 200 then demo_http_get catalog n offset else (n, None).

Definition demo_http_get_endless (catalog : list pyval) (n : nat)
    (offset : nat) : nat * option pyval :=
  (n, Some (PList (take 100 catalog))).

(** The three demo markets as the catalog serves them; the same catalog
    with an entry that is not a dict; and a catalog of one market whose
    question is null. *)
Definition demo_catalog : list pyval := PDict <$> demo_markets.

Definition demo_catalog_notice : list pyval :=
  demo_catalog ++ [PStr "maintenance"].

Definition demo_market_null_question : gmap string pyval :=
  <["question" := PNone]>
    (demo_market "?" "2026-11-04T12:00:00Z" (PInt 50000)
       "['111', '222']" "['Yes', 'No']").

Definition demo_catalog_null_question : list pyval :=
  [PDict demo_market_null_question].

Definition demo_setup_client (n : nat) : nat * bool := (n, true).

Definition demo_utc_now (n : nat) : Q := demo_now.

(** The world after the balance of 100 was read. *)
Definition demo_world_funded : World nat :=
  {| exchange := 0; positions_file := Absent; trace := [EvBalance 100] |}.

(** Worlds whose ledger file records contract 222, and holds an empty JSON
    array. *)
Definition demo_world_held : World nat :=
  {| exchange := 0;
     positions_file := Content (jtext "{'222': {'order_id': 'order-0'}}");
     trace := [] |}.

Definition demo_world_array : World nat :=
  {| exchange := 0; positions_file := Content "[]"; trace := [] |}.

Section Bot.

(** [json.loads] on a [str]: [None] when it raises. *)
Variable json_loads : string -> option pyval.

(** [str(v)] for the values whose text is not spelled out in [py_str]
    (floats, lists, dicts). *)
Variable py_repr : pyval -> string.

(** [str(v)]. *)
Definition py_str (v : pyval) : string :=
  match v with
  | PStr s => s
  | PInt z => pretty z
  | PBool true => "True"
  | PBool false => "False"
  | PNone => "None"
  | _ => py_repr v
  end.

(** [json.loads(v)]: a value that is not a [str] raises [TypeError]. *)
Definition py_json_loads (v : pyval) : option pyval :=
  match v with
  | PStr s => json_loads s
  | _ => None
  end.

(** ** ContractResolver: [get_token_ids] *)

(** One pass through the body of the [for i, outcome in enumerate(outcomes)]
    loop; [None] when the body raises, in which case [result] was not yet
    assigned in this pass. *)
Definition resolve_step (tokens : pyval) (i : nat) (outcome : pyval)
    (result : ContractRef) : option ContractRef :=
  n ← py_len tokens;
  if Nat.ltb i n then
    lo ← py_lower outcome;
    if String.eqb lo "yes" then
      t ← py_getitem tokens i;
      Some {| yes := Some (py_str t); no := no result |}
    else if String.eqb lo "no" then
      t ← py_getitem tokens i;
      Some {| yes := yes result; no := Some (py_str t) |}
    else Some result
  else Some result.

(** The loop; an exception leaves it through [except: pass] with the
    assignments made so far. *)
Fixpoint resolve_loop (tokens : pyval) (i : nat) (outcomes : list pyval)
    (result : ContractRef) : ContractRef :=
  match outcomes with
  | [] => result
  | outcome :: rest =>
      match resolve_step tokens i outcome result with
      | Some result' => resolve_loop tokens (S i) rest result'
      | None => result
      end
  end.

Definition get_token_ids (market : gmap string pyval) : ContractRef :=
  let result := null_ref in
  let tokens_str := py_get market "clobTokenIds" in
  let outcomes_str := py_get market "outcomes" in
  if negb (truthy tokens_str) || negb (truthy outcomes_str) then result
  else
    match py_json_loads tokens_str with
    | None => result
    | Some tokens =>
        match py_json_loads outcomes_str with
        | None => result
        | Some outcomes =>
            match py_iter outcomes with
            | None => result
            | Some items => resolve_loop tokens 0 items result
            end
        end
    end.

(** Specification of the loop: among the labels at positions [i], [i+1],
    ... that lowercase to [side] and have a token at their position, the
    token of the last one. *)
Fixpoint last_match (side : string) (i : nat) (labels : list string)
    (toks : list pyval) : option pyval :=
  match labels with
  | [] => None
  | label :: rest =>
      match last_match side (S i) rest toks with
      | Some t => Some t
      | None => if String.eqb (lower label) side then toks !! i else None
      end
  end.

(** [float(v)]; [None] when Python raises. *)
Variable float_of_string : string -> option Q.

Definition py_float (v : pyval) : option Q :=
  match v with
  | PFloat q => Some q
  | PInt z => Some (inject_Z z)
  | PBool b => Some (if b then 1 else 0)%Q
  | PStr s => float_of_string s
  | _ => None
  end.

(** ** EligibilityFilter: [filter_markets] *)

(** [datetime.fromisoformat]; [None] when it raises. *)
Variable fromisoformat : string -> option datetime.

(** The value of [hours] computed inside the first [try] block for the
    field value [end]; [None] when the block raises. *)
Definition hours_to_resolution (now : Q) (end_ : pyval) : option Q :=
  match end_ with
  | PStr s =>
      end_dt ← fromisoformat (replace_char "Z" "+00:00" s);
      secs ← seconds_until now end_dt;
      Some (secs / 3600)%Q
  | _ => None
  end.

(** [m.get('volume24hr') or 0]. *)
Definition volume_field (m : gmap string pyval) : pyval :=
  let v := py_get m "volume24hr" in
  if truthy v then v else PInt 0.

(** The body of the loop over [markets]: [None] is [continue], [Some m']
    is [filtered.append(m)] with [m'] the market as annotated by then. *)
Definition filter_step (now : Q) (m : gmap string pyval)
  : option (gmap string pyval) :=
  let end_ := py_get m "endDate" in
  if negb (truthy end_) then None
  else
    match hours_to_resolution now end_ with
    | None => None
    | Some hours =>
        if negb (Qle_bool MIN_HOURS hours && Qle_bool hours MAX_HOURS) then None
        else
          let m1 := <["_hours" := PFloat hours]> m in
          let vol := volume_field m1 in
          match py_float vol with
          | None => None
          | Some v =>
              if Qlt_bool v MIN_VOLUME then None
              else Some (<["_volume" := PFloat v]> m1)
          end
    end.

Fixpoint filter_markets (now : Q) (markets : list (gmap string pyval))
  : list (gmap string pyval) :=
  match markets with
  | [] => []
  | m :: rest =>
      match filter_step now m with
      | Some m' => m' :: filter_markets now rest
      | None => filter_markets now rest
      end
  end.

(** The hours to resolution the filter computes for [m]; [None] when the
    timestamp is missing, empty or does not parse. *)
Definition parsed_hours (now : Q) (m : gmap string pyval) : option Q :=
  if truthy (py_get m "endDate") then hours_to_resolution now (py_get m "endDate")
  else None.

(** The 24-hour volume the filter computes for [m] (a missing volume
    counts as [0]); [None] when [float] raises. *)
Definition parsed_volume (m : gmap string pyval) : option Q :=
  py_float (volume_field m).

(** ** OrderBookAnalyzer: [analyze_ob] *)

(** [{'price': float(a.price), 'size': float(a.size)}]. *)
Definition parse_level (a : Level) : option (Q * Q) :=
  p ← py_float (lv_price a);
  s ← py_float (lv_size a);
  Some (p, s).

(** The list comprehension over one side; [None] when a [float] raises. *)
Fixpoint parse_levels (side : list Level) : option (list (Q * Q)) :=
  match side with
  | [] => Some []
  | a :: rest =>
      x ← parse_level a;
      xs ← parse_levels rest;
      Some (x :: xs)
  end.

(** [min(l, key=price)] started at [best]: a later item replaces the
    current one only when its price is strictly lower. *)
Fixpoint min_by_price (best : Q * Q) (l : list (Q * Q)) : Q * Q :=
  match l with
  | [] => best
  | x :: rest =>
      if Qlt_bool (fst x) (fst best) then min_by_price x rest
      else min_by_price best rest
  end.

(** [max(l, key=price)] started at [best]. *)
Fixpoint max_by_price (best : Q * Q) (l : list (Q * Q)) : Q * Q :=
  match l with
  | [] => best
  | x :: rest =>
      if Qlt_bool (fst best) (fst x) then max_by_price x rest
      else max_by_price best rest
  end.

Definition in_band (p : Q) : bool := Qle_bool 0.90 p && Qle_bool p 0.98.

(** [sum(b['size'] for b in bids if 0.90 <= b['price'] <= 0.98)]. *)
Definition band_depth (bids : list (Q * Q)) : Q :=
  fold_left Qplus (map snd (List.filter (fun b => in_band (fst b)) bids)) 0%Q.

(** The part of [analyze_ob] after the book was fetched; [book] is [None]
    when the fetch raised or returned an unusable object. *)
Definition summarize (book : option Book) : option Summary :=
  match book with
  | None => None
  | Some b =>
      match parse_levels (asks b), parse_levels (bids b) with
      | Some (a0 :: arest), Some (b0 :: brest) =>
          let best_ask := min_by_price a0 arest in
          let best_bid := max_by_price b0 brest in
          Some {| ask := fst best_ask;
                  bid := fst best_bid;
                  spread := (fst best_ask - fst best_bid)%Q;
                  depth := band_depth (b0 :: brest) |}
      | _, _ => None
      end
  end.

(** ** The outside world *)

(** The state of everything remote: exchange, chain and clock. *)
Variable Exchange : Type.

(** [client.get_order_book(token_id)]: [None] when the call raises or
    returns an object [analyze_ob] rejects. *)
Variable get_order_book : Exchange -> string -> Exchange * option Book.

(** The [try] block of [place_trade]: [None] when it raises, otherwise the
    value of [resp.get('orderID')]. *)
Variable submit_order : Exchange -> OrderArgs -> Exchange * option pyval.

(** [get_balance()]: the balance read, [0] when the lookup fails. *)
Variable read_balance : Exchange -> Exchange * Q.

(** [datetime.now().isoformat()]. *)
Variable now_isoformat : Exchange -> string.

(** [json.dump(positions, f, indent=2)]: the text written. *)
Variable json_dumps : Ledger -> string.

Definition set_exchange (ex : Exchange) (w : World Exchange) : World Exchange :=
  {| exchange := ex; positions_file := positions_file w; trace := trace w |}.

Definition emit (e : Event) (w : World Exchange) : World Exchange :=
  {| exchange := exchange w; positions_file := positions_file w;
     trace := trace w ++ [e] |}.

Definition analyze_ob (token_id : string) (w : World Exchange) : World Exchange * option Summary :=
  let '(ex, book) := get_order_book (exchange w) token_id in
  (set_exchange ex w, summarize book).

(** ** OpportunityRanker: [find_opps] *)

(** The body of the loop over [markets], with [opps] the list built so
    far. *)
Definition find_opps_step (positions : Ledger) (st : World Exchange * list Opp)
    (m : gmap string pyval) : World Exchange * list Opp :=
  let '(w, opps) := st in
  let tids := get_token_ids m in
  match no tids with
  | None => (w, opps)
  | Some tid =>
      if negb (truthy (PStr tid)) || bool_decide (is_Some (positions !! Some tid))
      then (w, opps)
      else
        let '(w', ob) := analyze_ob tid w in
        match ob with
        | None => (w', opps)
        | Some ob =>
            if Qlt_bool MAX_SPREAD (spread ob) || Qlt_bool (depth ob) MIN_DEPTH
            then (w', opps)
            else if Qle_bool 0.90 (ask ob) && Qle_bool (ask ob) 0.98 then
              let y := ((1 - ask ob) / ask ob)%Q in
              if Qle_bool MIN_YIELD y then
                (w', opps ++ [ {| market := m; _ob := ob; _tids := tids;
                                  _yield := y; _price := ask ob |} ])
              else (w', opps)
            else (w', opps)
        end
  end.

(** [list.sort(key=..., reverse=True)] is stable: [x], which stood before
    every item of [l], goes in front of the first item whose key is not
    strictly greater. *)
Fixpoint insert_desc (x : Opp) (l : list Opp) : list Opp :=
  match l with
  | [] => [x]
  | y :: rest =>
      if Qlt_bool (_yield x) (_yield y) then y :: insert_desc x rest
      else x :: l
  end.

Definition sort_by_yield_desc (l : list Opp) : list Opp :=
  foldr insert_desc [] l.

(** The loop of [find_opps]: the list [opps] as it stands before the
    sort, in catalog order. *)
Definition collect_opps (markets : list (gmap string pyval))
    (positions : Ledger) (w : World Exchange) : World Exchange * list Opp :=
  fold_left (find_opps_step positions) markets (w, []).

Definition find_opps (markets : list (gmap string pyval)) (positions : Ledger)
    (w : World Exchange) : World Exchange * list Opp :=
  let '(w', opps) := collect_opps markets positions w in
  (w', sort_by_yield_desc opps).

(** What the loop guarantees of a market it appends, given the ledger
    [positions] it consulted. *)
Definition is_opportunity (positions : Ledger) (opp : Opp) : Prop :=
  exists tid w1 w2,
    _tids opp = get_token_ids (market opp)
    /\ no (_tids opp) = Some tid
    /\ tid <> EmptyString
    /\ positions !! Some tid = None
    /\ analyze_ob tid w1 = (w2, Some (_ob opp))
    /\ (spread (_ob opp) <= MAX_SPREAD)%Q
    /\ (MIN_DEPTH <= depth (_ob opp))%Q
    /\ _price opp = ask (_ob opp)
    /\ (0.90 <= _price opp)%Q /\ (_price opp <= 0.98)%Q
    /\ _yield opp = ((1 - _price opp) / _price opp)%Q
    /\ (MIN_YIELD <= _yield opp)%Q.

(** ** Sizer/Executor: [place_trade] *)

(** [min(x, y)]. *)
Definition py_min (x y : Q) : Q := if Qlt_bool y x then y else x.

Definition stake_of (balance : Q) : Q :=
  py_min (balance * POSITION_SIZE_PCT)%Q MAX_POSITION_SIZE.

(** [place_trade]: [None] when [stake / price] raises [ZeroDivisionError],
    which no handler in [place_trade] catches; otherwise the world after
    the call and the value returned. *)
Definition place_trade (opp : Opp) (balance : Q) (w : World Exchange)
  : option (World Exchange * pyval) :=
  let tid := no (_tids opp) in
  let price := _price opp in
  let stake := stake_of balance in
  if Qeq_bool price 0 then None
  else
    let size := (stake / price)%Q in
    if Qlt_bool stake 0.50 then Some (w, PNone)
    else
      let order := {| token_id := tid; o_price := price; o_size := size;
                      side := "BUY"; fee_rate_bps := 0 |} in
      let '(ex, result) := submit_order (exchange w) order in
      let w' := emit (EvOrder order result) (set_exchange ex w) in
      match result with
      | Some oid => Some (w', oid)
      | None => Some (w', PNone)
      end.

(** ** PositionLedger: [load_positions], [save_positions] *)

Definition load_positions (w : World Exchange) : pyval :=
  match positions_file w with
  | Absent => PDict ∅
  | Unreadable => PDict ∅
  | Content text =>
      match json_loads text with
      | Some v => v
      | None => PDict ∅
      end
  end.

Definition save_positions (positions : Ledger) (w : World Exchange) : World Exchange :=
  {| exchange := exchange w;
     positions_file := Content (json_dumps positions);
     trace := trace w ++ [EvSave positions] |}.

Definition get_balance (w : World Exchange) : World Exchange * Q :=
  let '(ex, b) := read_balance (exchange w) in
  (emit (EvBalance b) (set_exchange ex w), b).

(** ** CycleOrchestrator: the execution loop of [run_cycle] *)

(** The entry [positions[tid]] receives. *)
Definition position_entry (opp : Opp) (oid : pyval) (w : World Exchange) : pyval :=
  PDict (list_to_map
    [ ("title", default (PStr "Unknown") (market opp !! "question"));
      ("price", PFloat (_price opp));
      ("yield", PFloat (_yield opp));
      ("time", PStr (now_isoformat (exchange w)));
      ("order_id", oid) ]).

(** The body of [for opp in opps[:3]]; [None] when [place_trade] raises. *)
Definition trade_step (st : CycleState Exchange) (opp : Opp) : option (CycleState Exchange) :=
  let tid := no (_tids opp) in
  match positions st !! tid with
  | Some _ => Some st
  | None =>
      '(w1, oid) ← place_trade opp (balance st) (world st);
      if truthy oid then
        let positions' := <[tid := position_entry opp oid w1]> (positions st) in
        let w2 := save_positions positions' w1 in
        let '(w3, b) := get_balance w2 in
        Some {| positions := positions'; balance := b;
                trades := S (trades st); world := w3 |}
      else
        Some {| positions := positions st; balance := balance st;
                trades := trades st; world := w1 |}
  end.

Fixpoint run_trades (opps : list Opp) (st : CycleState Exchange) : option (CycleState Exchange) :=
  match opps with
  | [] => Some st
  | opp :: rest =>
      st' ← trade_step st opp;
      run_trades rest st'
  end.

(** The loop [for opp in opps[:3]] started with [trades = 0]. *)
Definition execute_top (opps : list Opp) (positions : Ledger) (balance : Q)
    (w : World Exchange) : option (CycleState Exchange) :=
  run_trades (take 3 opps)
    {| positions := positions; balance := balance; trades := 0; world := w |}.

(** ** Reading the trace of the execution loop *)

(** The order [place_trade] builds for [opp] out of the capital
    [balance]. *)
Definition order_for (opp : Opp) (balance : Q) : OrderArgs :=
  {| token_id := no (_tids opp);
     o_price := _price opp;
     o_size := (stake_of balance / _price opp)%Q;
     side := "BUY";
     fee_rate_bps := 0 |}.

(** The contract ids of the orders submitted, oldest first. *)
Definition submitted (tr : list Event) : list (option string) :=
  omap (fun e => match e with
                 | EvOrder order _ => Some (token_id order)
                 | _ => None
                 end) tr.

(** The contract ids of the successful trades: the orders that came back
    with an order id [run_cycle] takes as true. *)
Definition filled (tr : list Event) : list (option string) :=
  omap (fun e => match e with
                 | EvOrder order (Some oid) =>
                     if truthy oid then Some (token_id order) else None
                 | _ => None
                 end) tr.

(** [loop_trace opps l b tr l' b']: the calls [tr] the loop may make over
    [opps] when it starts with ledger [l] and capital [b] and ends with
    ledger [l'] and capital [b']. *)
Inductive loop_trace
  : list Opp -> Ledger -> Q -> list Event -> Ledger -> Q -> Prop :=
| loop_done l b :
    loop_trace [] l b [] l b
| loop_held opp rest l b tr l' b' :
    is_Some (l !! no (_tids opp)) ->
    loop_trace rest l b tr l' b' ->
    loop_trace (opp :: rest) l b tr l' b'
| loop_skipped opp rest l b tr l' b' :
    l !! no (_tids opp) = None ->
    (stake_of b < 0.50)%Q ->
    loop_trace rest l b tr l' b' ->
    loop_trace (opp :: rest) l b tr l' b'
| loop_failed opp rest l b result tr l' b' :
    l !! no (_tids opp) = None ->
    (0.50 <= stake_of b)%Q ->
    truthy (default PNone result) = false ->
    loop_trace rest l b tr l' b' ->
    loop_trace (opp :: rest) l b (EvOrder (order_for opp b) result :: tr) l' b'
| loop_traded opp rest l b oid entry b1 tr l' b' :
    l !! no (_tids opp) = None ->
    (0.50 <= stake_of b)%Q ->
    truthy oid = true ->
    loop_trace rest (<[no (_tids opp) := entry]> l) b1 tr l' b' ->
    loop_trace (opp :: rest) l b
      (EvOrder (order_for opp b) (Some oid)
         :: EvSave (<[no (_tids opp) := entry]> l)
         :: EvBalance b1 :: tr) l' b'.


(** ** MarketSource: [fetch_markets] *)

(** The request of one page, [requests.get(..., params={'limit': 100,
    'offset': offset, ...})] followed by [r.json()]: [None] when either
    raises. *)
Variable http_get_markets : Exchange -> nat -> Exchange * option pyval.

(** [markets['data']] when the body is a dict with the key ['data'], the
    body itself otherwise. *)
Definition unwrap_data (body : pyval) : pyval :=
  match body with
  | PDict d => match d !! "data" with Some v => v | None => body end
  | _ => body
  end.

(** The [while True] loop of [fetch_markets], [fuel] bounding the number
    of requests: [None] when the loop is still running after [fuel]
    requests.  Any exception inside the [try] is a [break]. *)
Fixpoint fetch_loop (fuel : nat) (offset : nat) (all_markets : list pyval)
    (w : World Exchange) : option (World Exchange * list pyval) :=
  match fuel with
  | O => None
  | S fuel' =>
      let '(ex, body) := http_get_markets (exchange w) offset in
      let w' := set_exchange ex w in
      match body with
      | None => Some (w', all_markets)
      | Some body =>
          let markets := unwrap_data body in
          if negb (truthy markets) then Some (w', all_markets)
          else
            match py_iter markets with
            | None => Some (w', all_markets)
            | Some items =>
                match py_len markets with
                | None => Some (w', all_markets ++ items)
                | Some n =>
                    if Nat.ltb n 100 then Some (w', all_markets ++ items)
                    else fetch_loop fuel' (offset + 100) (all_markets ++ items) w'
                end
            end
      end
  end.

Definition fetch_markets (fuel : nat) (w : World Exchange)
  : option (World Exchange * list pyval) :=
  fetch_loop fuel 0 [] w.

(** ** [filter_markets] on what [fetch_markets] returned *)

Definition as_dict (v : pyval) : option (gmap string pyval) :=
  match v with
  | PDict d => Some d
  | _ => None
  end.

(** The items as dicts; [None] when one of them is not a dict. *)
Fixpoint all_dicts (items : list pyval) : option (list (gmap string pyval)) :=
  match items with
  | [] => Some []
  | v :: rest =>
      d ← as_dict v;
      ds ← all_dicts rest;
      Some (d :: ds)
  end.

(** [filter_markets(all_markets)]: the loop reaches every item, and an item
    that is not a dict has no [get], so that [m.get('endDate')], which
    stands outside the [try] blocks, raises; [None] is that exception. *)
Definition filter_markets_items (now : Q) (items : list pyval)
  : option (list (gmap string pyval)) :=
  ms ← all_dicts items;
  Some (filter_markets now ms).

(** ** Ledgers that are not dicts *)

(** [t in s] for two strings. *)
Fixpoint is_substring (t s : string) : bool :=
  String.prefix t s
  || match s with
     | EmptyString => false
     | String _ r => is_substring t r
     end.

(** [key in positions] for a key that is [None] or a [str]; [None] when
    Python raises [TypeError]. *)
Definition py_in (key : option string) (positions : pyval) : option bool :=
  match positions, key with
  | PDict d, Some k => Some (bool_decide (is_Some (d !! k)))
  | PDict d, None => Some false
  | PList l, Some k =>
      Some (existsb (fun v => match v with
                              | PStr s => String.eqb s k
                              | _ => false
                              end) l)
  | PList l, None =>
      Some (existsb (fun v => match v with PNone => true | _ => false end) l)
  | PStr s, Some k => Some (is_substring k s)
  | _, _ => None
  end.

(** The ledger [find_opps] is given.  [find_opps] consults [positions] only
    through [tids['no'] in positions] for the "no" ids of the markets it
    goes through: for a dict these are its keys; for a list or a str the
    answers to these tests are collected as keys. *)
Definition ledger_of (positions : pyval) (markets : list (gmap string pyval))
  : Ledger :=
  match positions with
  | PDict d => kmap Some d
  | _ =>
      foldr (fun m acc =>
               match no (get_token_ids m) with
               | Some tid =>
                   if default false (py_in (Some tid) positions)
                   then <[Some tid := PNone]> acc else acc
               | None => acc
               end) ∅ markets
  end.

(** ** CycleOrchestrator: [run_cycle] *)

(** The [try] block that builds the trading client and derives its
    credentials: [false] when it raises. *)
Variable setup_client : Exchange -> Exchange * bool.

(** [datetime.now(timezone.utc)], in seconds since the epoch. *)
Variable utc_now : Exchange -> Q.

(** How a call of [run_cycle] ends. *)
Inductive CycleOutcome : Type :=
| MissingCredentials (w : World Exchange)
| SetupFailed (w : World Exchange)
| StillFetching
| RaisedBeforeTrading (w : World Exchange)
| RaisedInTrading
| RaisedOnRecord (w : World Exchange)
| CycleDone (trades : nat) (w : World Exchange).

(** [x[:50]] works on a str and on a list. *)
Definition sliceable (v : pyval) : bool :=
  match v with
  | PStr _ | PList _ => true
  | _ => false
  end.

(** The two log lines written for one of the top five opportunities:
    [o.get('question', 'Unknown')[:50]] must slice and [o['_volume']] must
    be there and format as a number; [false] when either raises. *)
Definition log_line_ok (opp : Opp) : bool :=
  sliceable (default (PStr "Unknown") (market opp !! "question"))
  && match market opp !! "_volume" with
     | Some (PFloat _) | Some (PInt _) | Some (PBool _) => true
     | _ => false
     end.

(** The execution loop when [positions] is a list or a str: the test
    [tid in positions] works, the assignment [positions[tid] = ...] after a
    filled order raises [TypeError]. *)
Fixpoint run_trades_unkeyed (positions : pyval) (opps : list Opp) (capital : Q)
    (w : World Exchange) : CycleOutcome :=
  match opps with
  | [] => CycleDone 0 w
  | opp :: rest =>
      match py_in (no (_tids opp)) positions with
      | None => RaisedInTrading
      | Some true => run_trades_unkeyed positions rest capital w
      | Some false =>
          match place_trade opp capital w with
          | None => RaisedInTrading
          | Some (w1, oid) =>
              if truthy oid then RaisedOnRecord w1
              else run_trades_unkeyed positions rest capital w1
          end
      end
  end.

(** [run_cycle], for the credentials [private_key] and [wallet_address]
    the module holds and at most [fuel] catalog requests.  The line logged
    before each trade slices the same question the top-five lines sliced,
    so it cannot raise once those went through. *)
Definition run_cycle (private_key wallet_address : string) (fuel : nat)
    (w : World Exchange) : CycleOutcome :=
  if negb (truthy (PStr private_key)) || negb (truthy (PStr wallet_address))
  then MissingCredentials w
  else
    let '(ex, ok) := setup_client (exchange w) in
    let w1 := set_exchange ex w in
    if negb ok then SetupFailed w1
    else
      let '(w2, capital) := get_balance w1 in
      let stored := load_positions w2 in
      match py_len stored with
      | None => RaisedBeforeTrading w2
      | Some _ =>
          match fetch_markets fuel w2 with
          | None => StillFetching
          | Some (w3, all_markets) =>
              match filter_markets_items (utc_now (exchange w3)) all_markets with
              | None => RaisedBeforeTrading w3
              | Some filtered =>
                  let '(w4, opps) :=
                    find_opps filtered (ledger_of stored filtered) w3 in
                  if negb (forallb log_line_ok (take 5 opps))
                  then RaisedBeforeTrading w4
                  else
                    match stored with
                    | PDict d =>
                        match execute_top opps (kmap Some d) capital w4 with
                        | Some st => CycleDone (trades st) (world st)
                        | None => RaisedInTrading
                        end
                    | _ => run_trades_unkeyed stored (take 3 opps) capital w4
                    end
              end
          end
      end.

(** The world a cycle ends in, when it ends. *)
Definition outcome_world (o : CycleOutcome) : option (World Exchange) :=
  match o with
  | MissingCredentials w | SetupFailed w | RaisedBeforeTrading w
  | RaisedOnRecord w | CycleDone _ w => Some w
  | StillFetching | RaisedInTrading => None
  end.

(** * Properties *)

(** ** ContractResolver *)

Lemma resolve_loop_ge (toks : list pyval) i outs r :
  length toks <= i -> resolve_loop (PList toks) i outs r = r.
Proof.
  revert i r. induction outs as [|o outs IH]; intros i r Hi; simpl; [done|].
  unfold resolve_step. simpl.
  destruct (Nat.ltb_spec i (length toks)); [lia|]. simpl.
  apply IH. lia.
Qed.

Lemma resolve_step_take (toks : list pyval) n i o r :
  i < n ->
  resolve_step (PList (take n toks)) i o r = resolve_step (PList toks) i o r.
Proof.
  intros Hi. unfold resolve_step. simpl.
  rewrite length_take.
  destruct (Nat.ltb_spec i (length toks)) as [Hlt|Hge].
  - destruct (Nat.ltb_spec i (n `min` length toks)); [|lia].
    rewrite lookup_take_lt by lia. done.
  - destruct (Nat.ltb_spec i (n `min` length toks)); [lia|]. done.
Qed.

Lemma resolve_loop_common (toks outs : list pyval) n i r :
  n = length toks `min` (i + length outs) ->
  resolve_loop (PList toks) i outs r
  = resolve_loop (PList (take n toks)) i (take (n - i) outs) r.
Proof.
  revert i r n. induction outs as [|o outs IH]; intros i r n Hn; simpl.
  - by rewrite take_nil.
  - destruct (decide (i < n)) as [Hlt|Hge].
    + replace (n - i) with (S (n - S i)) by lia. simpl.
      rewrite resolve_step_take by lia.
      destruct (resolve_step (PList toks) i o r) as [r'|]; [|done].
      apply IH. simpl in Hn. lia.
    + replace (n - i) with 0 by lia. simpl.
      assert (length toks <= i) by (simpl in Hn; lia).
      unfold resolve_step. simpl.
      destruct (Nat.ltb_spec i (length toks)); [lia|]. simpl.
      apply resolve_loop_ge. lia.
Qed.

Lemma truthy_PStr s : s <> EmptyString -> truthy (PStr s) = true.
Proof. intros Hs. simpl. destruct s; [done|reflexivity]. Qed.

(** Unfolding of [get_token_ids] once both fields decode to lists. *)
Lemma get_token_ids_decoded market ts os toks outs :
  market !! "clobTokenIds" = Some (PStr ts) ->
  market !! "outcomes" = Some (PStr os) ->
  ts <> EmptyString -> os <> EmptyString ->
  json_loads ts = Some (PList toks) ->
  json_loads os = Some (PList outs) ->
  get_token_ids market = resolve_loop (PList toks) 0 outs null_ref.
Proof.
  intros Ht Ho Hts Hos Hjt Hjo. unfold get_token_ids, py_get.
  rewrite Ht, Ho. simpl default.
  rewrite !truthy_PStr by done. simpl.
  rewrite Hjt, Hjo. reflexivity.
Qed.

(** C1 (amended). The resolver returns the all-null reference whenever a
    field is missing or empty or fails to decode.  Arrays of different
    lengths are not rejected: the result is the one computed from the two
    arrays cut to their common length, so labels that have a contract id at
    their index are still matched. *)
Theorem get_token_ids_malformed_or_mismatched :
  (forall market,
      truthy (py_get market "clobTokenIds") = false
      \/ truthy (py_get market "outcomes") = false
      \/ py_json_loads (py_get market "clobTokenIds") = None
      \/ py_json_loads (py_get market "outcomes") = None ->
      get_token_ids market = null_ref)
  /\ (forall market ts os toks outs,
      market !! "clobTokenIds" = Some (PStr ts) ->
      market !! "outcomes" = Some (PStr os) ->
      ts <> EmptyString -> os <> EmptyString ->
      json_loads ts = Some (PList toks) ->
      json_loads os = Some (PList outs) ->
      let n := length toks `min` length outs in
      get_token_ids market
      = resolve_loop (PList (take n toks)) 0 (take n outs) null_ref).
Proof.
  split.
  - intros market H. unfold get_token_ids.
    destruct (truthy (py_get market "clobTokenIds")); [|done].
    destruct (truthy (py_get market "outcomes")); [|done].
    simpl.
    destruct (py_json_loads (py_get market "clobTokenIds")) as [tokens|];
      [|done].
    destruct (py_json_loads (py_get market "outcomes")) as [outcomes|];
      [|done].
    destruct H as [H|[H|[H|H]]]; discriminate.
  - intros market ts os toks outs Ht Ho Hts Hos Hjt Hjo n.
    rewrite (get_token_ids_decoded _ _ _ _ _ Ht Ho Hts Hos Hjt Hjo).
    rewrite (resolve_loop_common toks outs n 0) by (subst n; simpl; lia).
    by rewrite Nat.sub_0_r.
Qed.

Lemma resolve_loop_sides (toks : list pyval) labels i r :
  yes (resolve_loop (PList toks) i (PStr <$> labels) r)
  = match last_match "yes" i labels toks with
    | Some t => Some (py_str t)
    | None => yes r
    end
  /\ no (resolve_loop (PList toks) i (PStr <$> labels) r)
    = match last_match "no" i labels toks with
      | Some t => Some (py_str t)
      | None => no r
      end.
Proof.
  revert i r. induction labels as [|label labels IH]; intros i r; [done|].
  cbn [fmap list_fmap resolve_loop last_match].
  unfold resolve_step. cbn [py_len py_lower py_getitem mbind option_bind].
  destruct (Nat.ltb_spec i (length toks)) as [Hlt|Hge].
  - destruct (lookup_lt_is_Some_2 toks i Hlt) as [t Ht]. rewrite Ht.
    cbn [mbind option_bind].
    destruct (String.eqb_spec (lower label) "yes") as [Hy|Hy].
    + destruct (String.eqb_spec (lower label) "no") as [Hn|Hn];
        [rewrite Hy in Hn; discriminate|].
      destruct (IH (S i) {| yes := Some (py_str t); no := no r |}) as [IHy IHn].
      rewrite IHy, IHn. simpl.
      by destruct (last_match "yes" (S i) labels toks), (last_match "no" (S i) labels toks).
    + destruct (String.eqb_spec (lower label) "no") as [Hn|Hn].
      * destruct (IH (S i) {| yes := yes r; no := Some (py_str t) |}) as [IHy IHn].
        rewrite IHy, IHn. simpl.
        by destruct (last_match "yes" (S i) labels toks), (last_match "no" (S i) labels toks).
      * destruct (IH (S i) r) as [IHy IHn]. rewrite IHy, IHn.
        by destruct (last_match "yes" (S i) labels toks), (last_match "no" (S i) labels toks).
  - rewrite (lookup_ge_None_2 toks i) by lia.
    destruct (IH (S i) r) as [IHy IHn]. rewrite IHy, IHn.
    destruct (last_match "yes" (S i) labels toks), (last_match "no" (S i) labels toks);
      split; try done; by destruct (String.eqb _ _).
Qed.

Lemma last_match_none side i labels (toks : list pyval) :
  (forall j label, labels !! j = Some label -> i + j < length toks ->
                   lower label <> side) ->
  last_match side i labels toks = None.
Proof.
  revert i. induction labels as [|l labels IH]; intros i H; simpl; [done|].
  rewrite IH.
  - destruct (String.eqb_spec (lower l) side) as [Heq|]; [|done].
    apply lookup_ge_None_2.
    destruct (decide (i < length toks)) as [Hlt|]; [|lia].
    exfalso. apply (H 0 l); [done|lia|done].
  - intros j label Hj Hlt. apply (H (S j) label); [done|lia].
Qed.

Lemma last_match_index side i labels (toks : list pyval) k label tok :
  labels !! k = Some label ->
  toks !! (i + k) = Some tok ->
  lower label = side ->
  (forall j label', k < j -> labels !! j = Some label' ->
                    i + j < length toks -> lower label' <> side) ->
  last_match side i labels toks = Some tok.
Proof.
  revert i k. induction labels as [|l labels IH]; intros i k Hk Ht Hl Hlast;
    [done|].
  simpl. destruct k as [|k].
  - injection Hk as ->.
    rewrite last_match_none.
    + rewrite Hl, String.eqb_refl. by rewrite Nat.add_0_r in Ht.
    + intros j label' Hj Hlt. apply (Hlast (S j) label'); [lia|done|lia].
  - rewrite (IH (S i) k); [done|done| |done|].
    + by replace (S i + k) with (i + S k) by lia.
    + intros j label' Hj Hlab Hlt.
      apply (Hlast (S j) label'); [lia|done|lia].
Qed.

(** C2 (amended). For well-formed arrays the resolver matches each label
    by comparing its lowercase form with "yes" and "no"; when several
    labels match the same side, the last of them that has a contract id at
    its index determines that side, and a side no such label matches stays
    null. *)
Theorem get_token_ids_last_match_wins market ts os toks labels :
  market !! "clobTokenIds" = Some (PStr ts) ->
  market !! "outcomes" = Some (PStr os) ->
  ts <> EmptyString -> os <> EmptyString ->
  json_loads ts = Some (PList toks) ->
  json_loads os = Some (PList (PStr <$> labels)) ->
  (forall i label tok,
      labels !! i = Some label -> toks !! i = Some tok ->
      lower label = "yes" ->
      (forall j label', i < j -> labels !! j = Some label' ->
                        j < length toks -> lower label' <> "yes") ->
      yes (get_token_ids market) = Some (py_str tok))
  /\ ((forall j label, labels !! j = Some label -> j < length toks ->
                       lower label <> "yes") ->
      yes (get_token_ids market) = None)
  /\ (forall i label tok,
      labels !! i = Some label -> toks !! i = Some tok ->
      lower label = "no" ->
      (forall j label', i < j -> labels !! j = Some label' ->
                        j < length toks -> lower label' <> "no") ->
      no (get_token_ids market) = Some (py_str tok))
  /\ ((forall j label, labels !! j = Some label -> j < length toks ->
                       lower label <> "no") ->
      no (get_token_ids market) = None).
Proof.
  intros Ht Ho Hts Hos Hjt Hjo.
  rewrite (get_token_ids_decoded _ _ _ _ _ Ht Ho Hts Hos Hjt Hjo).
  destruct (resolve_loop_sides toks labels 0 null_ref) as [Hy Hn].
  rewrite Hy, Hn. repeat split.
  - intros i label tok Hi Hti Hl Hlast.
    by rewrite (last_match_index "yes" 0 labels toks i label tok).
  - intros Hnone. by rewrite last_match_none.
  - intros i label tok Hi Hti Hl Hlast.
    by rewrite (last_match_index "no" 0 labels toks i label tok).
  - intros Hnone. by rewrite last_match_none.
Qed.

(** ** OrderBookAnalyzer *)

Lemma Qlt_bool_iff x y : Qlt_bool x y = true <-> (x < y)%Q.
Proof.
  unfold Qlt_bool. rewrite negb_true_iff.
  split.
  - intros H. apply Qnot_le_lt. intros Hle.
    apply Qle_bool_iff in Hle. congruence.
  - intros H. destruct (Qle_bool y x) eqn:E; [|done].
    apply Qle_bool_iff in E. exfalso. by apply (Qlt_not_le x y).
Qed.

Lemma Qlt_bool_false x y : Qlt_bool x y = false <-> (y <= x)%Q.
Proof.
  unfold Qlt_bool. rewrite negb_false_iff. apply Qle_bool_iff.
Qed.



Lemma parse_levels_nil side : parse_levels side = Some [] -> side = [].
Proof.
  destruct side as [|a rest]; [done|]. simpl.
  destruct (parse_level a); simpl; [|done].
  destruct (parse_levels rest); simpl; done.
Qed.



(** ** EligibilityFilter *)

Lemma volume_field_insert_hours m h :
  volume_field (<["_hours" := PFloat h]> m) = volume_field m.
Proof. unfold volume_field, py_get. by rewrite lookup_insert_ne. Qed.

Lemma hours_window_iff h :
  Qle_bool MIN_HOURS h && Qle_bool h MAX_HOURS = true
  <-> (MIN_HOURS <= h)%Q /\ (h <= MAX_HOURS)%Q.
Proof. by rewrite andb_true_iff, !Qle_bool_iff. Qed.

(** The loop body decided by the two parsed quantities. *)
Lemma filter_step_Some now m m' :
  filter_step now m = Some m'
  <-> exists hours vol,
      parsed_hours now m = Some hours
      /\ parsed_volume m = Some vol
      /\ (MIN_HOURS <= hours)%Q /\ (hours <= MAX_HOURS)%Q
      /\ (MIN_VOLUME <= vol)%Q
      /\ m' = <["_volume" := PFloat vol]> (<["_hours" := PFloat hours]> m).
Proof.
  unfold filter_step, parsed_hours, parsed_volume.
  destruct (truthy (py_get m "endDate")); simpl;
    [|split; [done|intros (? & ? & ? & _); done]].
  destruct (hours_to_resolution now (py_get m "endDate")) as [hours|];
    [|split; [done|intros (? & ? & ? & _); done]].
  rewrite volume_field_insert_hours.
  destruct (Qle_bool MIN_HOURS hours && Qle_bool hours MAX_HOURS) eqn:Ew; simpl.
  - apply hours_window_iff in Ew as [Hlo Hhi].
    destruct (py_float (volume_field m)) as [v|];
      [|split; [done|intros (? & ? & _ & ? & _); done]].
    destruct (Qlt_bool v MIN_VOLUME) eqn:Ev.
    + apply Qlt_bool_iff in Ev.
      split; [done|]. intros (? & ? & _ & [= <-] & _ & _ & Hv & _). lra.
    + apply Qlt_bool_false in Ev.
      split.
      * intros [= <-]. by exists hours, v.
      * by intros (? & ? & [= <-] & [= <-] & _ & _ & _ & ->).
  - split; [done|].
    intros (? & ? & [= <-] & _ & Hlo & Hhi & _).
    assert (Qle_bool MIN_HOURS hours && Qle_bool hours MAX_HOURS = true)
      by by apply hours_window_iff.
    congruence.
Qed.



(** ** OpportunityRanker *)

(** The two ways one pass of the loop can end. *)
Lemma find_opps_step_cases positions w opps m :
  exists w',
    find_opps_step positions (w, opps) m = (w', opps)
    \/ exists opp,
        find_opps_step positions (w, opps) m = (w', opps ++ [opp])
        /\ market opp = m
        /\ is_opportunity positions opp.
Proof.
  unfold find_opps_step.
  destruct (no (get_token_ids m)) as [tid|] eqn:Etid; [|by exists w; left].
  destruct (truthy (PStr tid)) eqn:Etruthy; simpl negb; cbn [orb];
    [|by exists w; left].
  destruct (bool_decide (is_Some (positions !! Some tid))) eqn:Eheld;
    [by exists w; left|].
  apply bool_decide_eq_false in Eheld.
  assert (positions !! Some tid = None) as Hfree
    by (destruct (positions !! Some tid); [exfalso; eauto|done]).
  destruct (analyze_ob tid w) as [w' [ob|]] eqn:Eob; [|by exists w'; left].
  exists w'.
  destruct (Qlt_bool MAX_SPREAD (spread ob)) eqn:Esp; [by left|].
  destruct (Qlt_bool (depth ob) MIN_DEPTH) eqn:Edp; [by left|].
  cbn [orb].
  destruct (Qle_bool 0.90 (ask ob)) eqn:Elo; [|by left].
  destruct (Qle_bool (ask ob) 0.98) eqn:Ehi; [|by left].
  cbn [andb].
  destruct (Qle_bool MIN_YIELD ((1 - ask ob) / ask ob)) eqn:Ey; [|by left].
  right. eexists. split; [reflexivity|]. split; [reflexivity|].
  exists tid, w, w'. simpl.
  apply Qlt_bool_false in Esp. apply Qlt_bool_false in Edp.
  apply Qle_bool_iff in Elo. apply Qle_bool_iff in Ehi.
  apply Qle_bool_iff in Ey.
  repeat split; try done.
  intros ->. discriminate.
Qed.

(** The loop appends, in catalog order, at most one opportunity per
    market. *)
Lemma collect_opps_from positions markets w acc :
  exists w' new,
    fold_left (find_opps_step positions) markets (w, acc) = (w', acc ++ new)
    /\ Forall (is_opportunity positions) new
    /\ sublist (market <$> new) markets.
Proof.
  revert w acc. induction markets as [|m markets IH]; intros w acc;
    cbn [fold_left].
  - exists w, []. by rewrite app_nil_r.
  - destruct (find_opps_step_cases positions w acc m)
      as [w1 [Hskip|(opp & Hadd & Hm & Hok)]].
    + rewrite Hskip. destruct (IH w1 acc) as (w' & new & Hf & Hall & Hsub).
      exists w', new. repeat split; try done. by apply sublist_cons.
    + rewrite Hadd.
      destruct (IH w1 (acc ++ [opp])) as (w' & new & Hf & Hall & Hsub).
      exists w', (opp :: new). rewrite Hf, <- app_assoc. simpl.
      repeat split; [by constructor|]. rewrite Hm. by apply sublist_skip.
Qed.

Lemma collect_opps_spec positions markets w :
  Forall (is_opportunity positions) (snd (collect_opps markets positions w))
  /\ sublist (market <$> snd (collect_opps markets positions w)) markets.
Proof.
  unfold collect_opps.
  destruct (collect_opps_from positions markets w [])
    as (w' & new & Hf & Hall & Hsub).
  rewrite Hf. done.
Qed.

Lemma insert_desc_perm x l : Permutation (insert_desc x l) (x :: l).
Proof.
  induction l as [|y l IH]; simpl; [done|].
  destruct (Qlt_bool (_yield x) (_yield y)); [|done].
  rewrite IH. apply perm_swap.
Qed.

Lemma sort_by_yield_desc_perm l : Permutation (sort_by_yield_desc l) l.
Proof.
  induction l as [|x l IH]; simpl; [done|].
  unfold sort_by_yield_desc in *. simpl.
  rewrite insert_desc_perm. by constructor.
Qed.

Lemma find_opps_sorted markets positions w :
  snd (find_opps markets positions w)
  = sort_by_yield_desc (snd (collect_opps markets positions w)).
Proof. unfold find_opps. by destruct (collect_opps markets positions w). Qed.

(** C5. Every market in the list [find_opps] returns has a resolved "no"
    contract id that is not a key of the ledger passed in, and the best ask
    of the order book fetched for it, kept as its price, lies in
    [[0.90, 0.98]]. *)
Theorem find_opps_excludes_held_and_out_of_band markets positions w :
  Forall (fun opp =>
            market opp ∈ markets
            /\ (exists tid w1 w2,
                  no (get_token_ids (market opp)) = Some tid
                  /\ positions !! Some tid = None
                  /\ analyze_ob tid w1 = (w2, Some (_ob opp))
                  /\ (0.90 <= ask (_ob opp))%Q /\ (ask (_ob opp) <= 0.98)%Q)
            /\ positions !! no (_tids opp) = None
            /\ (0.90 <= _price opp)%Q /\ (_price opp <= 0.98)%Q)
         (snd (find_opps markets positions w)).
Proof.
  rewrite find_opps_sorted.
  destruct (collect_opps_spec positions markets w) as [Hall Hsub].
  rewrite sort_by_yield_desc_perm.
  apply Forall_forall. intros opp Hin.
  rewrite Forall_forall in Hall.
  destruct (Hall opp Hin)
    as (tid & w1 & w2 & Htids & Hno & _ & Hfree & Hob & _ & _ & Hp & Hlo & Hhi & _).
  split.
  - eapply elem_of_sublist; [|exact Hsub]. by apply list_elem_of_fmap_2.
  - split.
    + exists tid, w1, w2. rewrite <- Htids, <- Hp. done.
    + by rewrite Hno.
Qed.

Lemma insert_desc_sorted x l :
  StronglySorted (fun a b => (_yield b <= _yield a)%Q) l ->
  StronglySorted (fun a b => (_yield b <= _yield a)%Q) (insert_desc x l).
Proof.
  induction 1 as [|y l Hl IH Hy]; simpl; [by repeat constructor|].
  destruct (Qlt_bool (_yield x) (_yield y)) eqn:E.
  - apply Qlt_bool_iff in E. constructor; [done|].
    rewrite insert_desc_perm. constructor; [by apply Qlt_le_weak|done].
  - apply Qlt_bool_false in E. constructor; [by constructor|].
    constructor; [done|].
    eapply Forall_impl; [exact Hy|]. intros z Hz. simpl in Hz.
    eapply Qle_trans; eauto.
Qed.

Lemma sort_by_yield_desc_sorted l :
  StronglySorted (fun a b => (_yield b <= _yield a)%Q) (sort_by_yield_desc l).
Proof.
  induction l as [|x l IH]; [constructor|].
  unfold sort_by_yield_desc in *. simpl. by apply insert_desc_sorted.
Qed.

(** Inserting keeps the items of any one yield in their order. *)
Lemma insert_desc_stable y x l :
  List.filter (fun o => Qeq_bool (_yield o) y) (insert_desc x l)
  = List.filter (fun o => Qeq_bool (_yield o) y) (x :: l).
Proof.
  induction l as [|z l IH]; [done|].
  cbn [insert_desc].
  destruct (Qlt_bool (_yield x) (_yield z)) eqn:E; [|done].
  apply Qlt_bool_iff in E.
  cbn [List.filter] in *.
  destruct (Qeq_bool (_yield z) y) eqn:Ez.
  - destruct (Qeq_bool (_yield x) y) eqn:Ex.
    + apply Qeq_bool_iff in Ez, Ex. exfalso. rewrite Ez, Ex in E.
      by apply (Qlt_irrefl y).
    + by rewrite IH.
  - by rewrite IH.
Qed.

Lemma sort_by_yield_desc_stable y l :
  List.filter (fun o => Qeq_bool (_yield o) y) (sort_by_yield_desc l)
  = List.filter (fun o => Qeq_bool (_yield o) y) l.
Proof.
  induction l as [|x l IH]; [done|].
  unfold sort_by_yield_desc in *. cbn [foldr].
  rewrite insert_desc_stable. cbn [List.filter]. by rewrite IH.
Qed.

(** C6 (amended). The list [find_opps] returns holds the opportunities the
    loop collected in catalog order, rearranged so that yields never
    increase along the list (equal yields may stand next to each other),
    and the opportunities of any one yield keep their catalog order. *)
Theorem find_opps_sorted_descending_stable markets positions w :
  StronglySorted (fun a b => (_yield b <= _yield a)%Q)
    (snd (find_opps markets positions w))
  /\ Permutation (snd (find_opps markets positions w))
       (snd (collect_opps markets positions w))
  /\ sublist (market <$> snd (collect_opps markets positions w)) markets
  /\ forall y,
      List.filter (fun o => Qeq_bool (_yield o) y)
        (snd (find_opps markets positions w))
      = List.filter (fun o => Qeq_bool (_yield o) y)
          (snd (collect_opps markets positions w)).
Proof.
  rewrite find_opps_sorted. repeat split.
  - apply sort_by_yield_desc_sorted.
  - apply sort_by_yield_desc_perm.
  - apply collect_opps_spec.
  - intros y. apply sort_by_yield_desc_stable.
Qed.

(** ** Sizer/Executor *)

Lemma py_min_Qmin x y : (py_min x y == Qmin x y)%Q.
Proof.
  unfold py_min. destruct (Qlt_bool y x) eqn:E.
  - apply Qlt_bool_iff in E. symmetry. apply Q.min_r. by apply Qlt_le_weak.
  - apply Qlt_bool_false in E. symmetry. by apply Q.min_l.
Qed.

Lemma is_opportunity_price_nonzero positions opp :
  is_opportunity positions opp -> ~ (_price opp == 0)%Q.
Proof.
  intros (? & ? & ? & _ & _ & _ & _ & _ & _ & _ & _ & Hlo & _) Hz.
  rewrite Hz in Hlo. revert Hlo. by vm_compute.
Qed.

(** C7. [place_trade] computes the stake as the smaller of
    [balance * POSITION_SIZE_PCT] and [MAX_POSITION_SIZE] and the size as
    stake over price.  When the stake is below 0.50 it returns [None] and
    leaves the world as it was (nothing is submitted); otherwise it submits
    exactly one order for that contract, price and size and returns the
    order id (or [None] when the submission fails).  With the configured
    10% and cap 10: capital 50 stakes 5, capital 200 stakes 10, capital 2
    stakes 0.2 and is skipped. *)
Theorem place_trade_sizing_and_skip opp balance w :
  ~ (_price opp == 0)%Q ->
  (stake_of balance == Qmin (balance * POSITION_SIZE_PCT) MAX_POSITION_SIZE)%Q
  /\ ((stake_of balance < 0.50)%Q ->
      place_trade opp balance w = Some (w, PNone))
  /\ ((0.50 <= stake_of balance)%Q ->
      exists ex result,
        let order := {| token_id := no (_tids opp);
                        o_price := _price opp;
                        o_size := (stake_of balance / _price opp)%Q;
                        side := "BUY";
                        fee_rate_bps := 0 |} in
        submit_order (exchange w) order = (ex, result)
        /\ place_trade opp balance w
           = Some ({| exchange := ex;
                      positions_file := positions_file w;
                      trace := trace w ++ [EvOrder order result] |},
                   default PNone result))
  /\ (stake_of 50 == 5)%Q /\ (stake_of 200 == 10)%Q /\ (stake_of 2 == 0.2)%Q
  /\ place_trade opp 2 w = Some (w, PNone).
Proof.
  intros Hprice.
  assert (Qeq_bool (_price opp) 0 = false) as Hnz.
  { destruct (Qeq_bool (_price opp) 0) eqn:E; [|done].
    apply Qeq_bool_iff in E. done. }
  split; [apply py_min_Qmin|].
  split; [|split].
  - intros Hlow. unfold place_trade. rewrite Hnz.
    apply Qlt_bool_iff in Hlow. by rewrite Hlow.
  - intros Hok. unfold place_trade. rewrite Hnz.
    apply Qlt_bool_false in Hok. rewrite Hok.
    destruct (submit_order _ _) as [ex result] eqn:Esub.
    exists ex, result. split; [done|].
    by destruct result.
  - repeat split; try (vm_compute; reflexivity).
    unfold place_trade. rewrite Hnz.
    by replace (Qlt_bool (stake_of 2) 0.50) with true by (vm_compute; reflexivity).
Qed.

(** ** PositionLedger *)

(** C8. [load_positions] returns the decoded content of the ledger file
    when the file is there and decodes, and the empty mapping when there is
    no file, when the file cannot be read, and when its content does not
    decode; being a total function, it never raises. *)
Theorem load_positions_total (w : World Exchange) :
  (forall text v,
      positions_file w = Content text -> json_loads text = Some v ->
      load_positions w = v)
  /\ (positions_file w = Absent -> load_positions w = PDict ∅)
  /\ (forall text,
      positions_file w = Content text -> json_loads text = None ->
      load_positions w = PDict ∅)
  /\ (positions_file w = Unreadable -> load_positions w = PDict ∅).
Proof.
  unfold load_positions. repeat split.
  - intros text v -> ->. done.
  - intros ->. done.
  - intros text -> ->. done.
  - intros ->. done.
Qed.

(** ** CycleOrchestrator *)

Lemma truthy_default_true result :
  truthy (default PNone result) = true ->
  exists oid, result = Some oid /\ truthy oid = true.
Proof. destruct result as [oid|]; [by exists oid|done]. Qed.

(** The two ways [place_trade] returns when the price is not zero. *)
Lemma place_trade_cases opp b (w : World Exchange) :
  ~ (_price opp == 0)%Q ->
  ((stake_of b < 0.50)%Q -> place_trade opp b w = Some (w, PNone))
  /\ ((0.50 <= stake_of b)%Q ->
      exists ex result,
        submit_order (exchange w) (order_for opp b) = (ex, result)
        /\ place_trade opp b w
           = Some ({| exchange := ex;
                      positions_file := positions_file w;
                      trace := trace w ++ [EvOrder (order_for opp b) result] |},
                   default PNone result)).
Proof.
  intros Hprice.
  assert (Qeq_bool (_price opp) 0 = false) as Hnz.
  { destruct (Qeq_bool (_price opp) 0) eqn:E; [|done].
    apply Qeq_bool_iff in E. done. }
  unfold place_trade. rewrite Hnz. split.
  - intros Hlow. apply Qlt_bool_iff in Hlow. by rewrite Hlow.
  - intros Hok. apply Qlt_bool_false in Hok. rewrite Hok.
    fold (order_for opp b).
    destruct (submit_order _ _) as [ex result] eqn:Esub.
    exists ex, result. split; [done|]. by destruct result.
Qed.

(** The four ways one pass of the execution loop can go. *)
Lemma trade_step_cases (st : CycleState Exchange) opp :
  ~ (_price opp == 0)%Q ->
  (is_Some (positions st !! no (_tids opp)) /\ trade_step st opp = Some st)
  \/ (positions st !! no (_tids opp) = None
      /\ (stake_of (balance st) < 0.50)%Q
      /\ trade_step st opp = Some st)
  \/ (positions st !! no (_tids opp) = None
      /\ (0.50 <= stake_of (balance st))%Q
      /\ exists ex result,
          submit_order (exchange (world st)) (order_for opp (balance st))
          = (ex, result)
          /\ truthy (default PNone result) = false
          /\ trade_step st opp
             = Some {| positions := positions st;
                       balance := balance st;
                       trades := trades st;
                       world :=
                         {| exchange := ex;
                            positions_file := positions_file (world st);
                            trace := trace (world st)
                                     ++ [EvOrder (order_for opp (balance st)) result] |} |})
  \/ (positions st !! no (_tids opp) = None
      /\ (0.50 <= stake_of (balance st))%Q
      /\ exists ex oid entry ex' b,
          submit_order (exchange (world st)) (order_for opp (balance st))
          = (ex, Some oid)
          /\ truthy oid = true
          /\ read_balance ex = (ex', b)
          /\ trade_step st opp
             = Some {| positions := <[no (_tids opp) := entry]> (positions st);
                       balance := b;
                       trades := S (trades st);
                       world :=
                         {| exchange := ex';
                            positions_file :=
                              Content (json_dumps
                                         (<[no (_tids opp) := entry]> (positions st)));
                            trace := trace (world st)
                                     ++ [EvOrder (order_for opp (balance st)) (Some oid);
                                         EvSave (<[no (_tids opp) := entry]> (positions st));
                                         EvBalance b] |} |}).
Proof.
  intros Hprice. destruct st as [l b n w]. simpl.
  unfold trade_step. simpl.
  destruct (l !! no (_tids opp)) as [held|] eqn:Eheld; [left; eauto|].
  right.
  destruct (place_trade_cases opp b w Hprice) as (Hlow & Hsubmit).
  destruct (Qlt_le_dec (stake_of b) 0.50) as [Hlt|Hge].
  - left. rewrite (Hlow Hlt). simpl. done.
  - right. destruct (Hsubmit Hge) as (ex & result & Hsub & Hplace).
    rewrite Hplace. simpl.
    destruct (truthy (default PNone result)) eqn:Etruthy.
    + right. apply truthy_default_true in Etruthy as (oid & -> & Hoid).
      simpl. unfold get_balance, save_positions. simpl.
      destruct (read_balance ex) as [ex' b1] eqn:Ebal.
      repeat split; try done.
      exists ex, oid, (position_entry opp oid
                         {| exchange := ex; positions_file := positions_file w;
                            trace := trace w ++ [EvOrder (order_for opp b) (Some oid)] |}),
        ex', b1.
      repeat split; try done.
      unfold emit, set_exchange. simpl. by rewrite <- !app_assoc.
    + left. repeat split; try done. by exists ex, result.
Qed.

Lemma filled_failed order result tr :
  truthy (default PNone result) = false ->
  filled (EvOrder order result :: tr) = filled tr.
Proof.
  intros Hfalsy. unfold filled. cbn [omap list_omap].
  destruct result as [oid|]; [|done]. simpl in Hfalsy. by rewrite Hfalsy.
Qed.

Lemma filled_traded order oid ledger b tr :
  truthy oid = true ->
  filled (EvOrder order (Some oid) :: EvSave ledger :: EvBalance b :: tr)
  = token_id order :: filled tr.
Proof. intros Hoid. unfold filled. cbn [omap list_omap]. by rewrite Hoid. Qed.

Lemma submitted_traded order result ledger b tr :
  submitted (EvOrder order result :: EvSave ledger :: EvBalance b :: tr)
  = token_id order :: submitted tr.
Proof. reflexivity. Qed.

(** Without a successful trade the ledger stays as it was. *)
Lemma loop_trace_no_fill opps l b tr l' b' :
  loop_trace opps l b tr l' b' -> filled tr = [] -> l' = l.
Proof.
  induction 1 as [| | |? ? ? ? result ? ? ? ? ? Hfalsy ? IH
                  |? ? ? ? oid ? ? ? ? ? ? ? Hoid ? IH];
    intros Hnone; auto.
  - apply IH. by rewrite filled_failed in Hnone.
  - by rewrite filled_traded in Hnone.
Qed.

(** The loop over [opps] returns, and its calls follow [loop_trace]. *)
Lemma run_trades_trace opps (st : CycleState Exchange) :
  Forall (fun opp => ~ (_price opp == 0)%Q) opps ->
  exists st' new,
    run_trades opps st = Some st'
    /\ trace (world st') = trace (world st) ++ new
    /\ loop_trace opps (positions st) (balance st) new
         (positions st') (balance st')
    /\ trades st' = trades st + length (filled new)
    /\ positions_file (world st')
       = match filled new with
         | [] => positions_file (world st)
         | _ :: _ => Content (json_dumps (positions st'))
         end.
Proof.
  intros Hprices. revert st.
  induction Hprices as [|opp opps Hprice _ IH]; intros st.
  - exists st, []. simpl. rewrite app_nil_r, Nat.add_0_r.
    repeat split; try done. constructor.
  - cbn [run_trades].
    destruct (trade_step_cases st opp Hprice)
      as [[Hheld Hstep]|[(Hfree & Hlow & Hstep)
         |[(Hfree & Hok & ex & result & Hsub & Hfalsy & Hstep)
          |(Hfree & Hok & ex & oid & entry & ex' & b & Hsub & Hoid & Hbal & Hstep)]]];
      rewrite Hstep; simpl.
    + destruct (IH st) as (st' & new & Hrun & Htr & Hloop & Hn & Hfile).
      exists st', new. repeat split; try done. by apply loop_held.
    + destruct (IH st) as (st' & new & Hrun & Htr & Hloop & Hn & Hfile).
      exists st', new. repeat split; try done. by apply loop_skipped.
    + match goal with |- context [run_trades opps ?s] =>
        destruct (IH s) as (st' & new & Hrun & Htr & Hloop & Hn & Hfile) end.
      simpl in *.
      exists st', (EvOrder (order_for opp (balance st)) result :: new).
      rewrite filled_failed by done. repeat split; try done.
      * by rewrite Htr, <- app_assoc.
      * by apply loop_failed.
    + match goal with |- context [run_trades opps ?s] =>
        destruct (IH s) as (st' & new & Hrun & Htr & Hloop & Hn & Hfile) end.
      simpl in *.
      exists st', (EvOrder (order_for opp (balance st)) (Some oid)
                     :: EvSave (<[no (_tids opp) := entry]> (positions st))
                     :: EvBalance b :: new).
      rewrite filled_traded by done. repeat split; try done.
      * by rewrite Htr, <- app_assoc.
      * by apply loop_traded.
      * rewrite Hn. simpl. lia.
      * rewrite Hfile. destruct (filled new) eqn:Enew; [|done].
        by rewrite (loop_trace_no_fill _ _ _ _ _ _ Hloop Enew).
Qed.

(** Orders go out in the order of the list, at most one per item. *)
Lemma loop_trace_submitted opps l b tr l' b' :
  loop_trace opps l b tr l' b' ->
  sublist (submitted tr) ((fun opp => no (_tids opp)) <$> opps).
Proof.
  induction 1; simpl.
  - constructor.
  - by apply sublist_cons.
  - by apply sublist_cons.
  - by apply sublist_skip.
  - by apply sublist_skip.
Qed.

(** The ledger only grows, and grows exactly by the successful trades,
    each on a contract id it did not hold. *)
Lemma loop_trace_ledger opps l b tr l' b' :
  loop_trace opps l b tr l' b' ->
  (forall k v, l !! k = Some v -> l' !! k = Some v)
  /\ (forall tid, tid ∈ filled tr -> l !! tid = None /\ is_Some (l' !! tid))
  /\ (forall k, is_Some (l' !! k) -> is_Some (l !! k) \/ k ∈ filled tr)
  /\ NoDup (filled tr).
Proof.
  induction 1 as [| | |? ? ? ? result ? ? ? ? ? Hfalsy ? IH
                  |opp ? l b oid entry ? ? ? ? Hfree ? Hoid ? IH];
    try done.
  - split; [done|]. split; [by intros tid Hin%elem_of_nil|].
    split; [by left|constructor].
  - by rewrite filled_failed.
  - rewrite filled_traded by done. simpl.
    destruct IH as (Hkeep & Hfresh & Hdom & Hnodup).
    assert (forall tid, tid ∈ filled tr -> tid <> no (_tids opp)) as Hother.
    { intros tid Hin ->. destruct (Hfresh _ Hin) as [Hnone _].
      by rewrite lookup_insert_eq in Hnone. }
    split; [|split; [|split]].
    + intros k v Hk. apply Hkeep. rewrite lookup_insert_ne; [done|].
      intros <-. congruence.
    + intros tid [->|Hin]%elem_of_cons.
      * split; [done|]. eexists. apply Hkeep. apply lookup_insert_eq.
      * destruct (Hfresh _ Hin) as [Hnone Hsome]. split; [|done].
        rewrite lookup_insert_ne in Hnone; [done|].
        intros <-. by apply (Hother _ Hin).
    + intros k Hk. destruct (Hdom k Hk) as [Hin|Hin].
      * destruct (decide (k = no (_tids opp))) as [->|Hne].
        -- right. apply elem_of_cons. by left.
        -- left. by rewrite lookup_insert_ne in Hin.
      * right. apply elem_of_cons. by right.
    + constructor; [|done]. intros Hin. by apply (Hother _ Hin).
Qed.


Lemma execute_top_trace opps ledger capital (w : World Exchange) :
  Forall (fun opp => ~ (_price opp == 0)%Q) opps ->
  exists st new,
    execute_top opps ledger capital w = Some st
    /\ trace (world st) = trace w ++ new
    /\ loop_trace (take 3 opps) ledger capital new
         (positions st) (balance st)
    /\ trades st = length (filled new)
    /\ positions_file (world st)
       = match filled new with
         | [] => positions_file w
         | _ :: _ => Content (json_dumps (positions st))
         end.
Proof.
  intros Hprices. unfold execute_top.
  destruct (run_trades_trace (take 3 opps)
              {| positions := ledger; balance := capital;
                 trades := 0; world := w |})
    as (st & new & Hrun & Htr & Hloop & Hn & Hfile).
  { by apply Forall_take. }
  exists st, new. done.
Qed.


(** C10. Whatever contract ids the top-ranked opportunities carry, also
    when several of them carry the same one, the execution loop creates at
    most one position per contract id: the successful trades of a cycle
    are on pairwise different contract ids, none of them in the ledger
    when the loop started, and the ledger ends as the old one extended by
    exactly those ids. *)
Theorem execute_top_one_position_per_contract opps ledger capital
    (w : World Exchange) :
  Forall (fun opp => ~ (_price opp == 0)%Q) opps ->
  exists st new,
    execute_top opps ledger capital w = Some st
    /\ trace (world st) = trace w ++ new
    /\ NoDup (filled new)
    /\ trades st = length (filled new)
    /\ (forall tid, tid ∈ filled new ->
                    ledger !! tid = None /\ is_Some (positions st !! tid))
    /\ (forall k v, ledger !! k = Some v -> positions st !! k = Some v)
    /\ (forall k, is_Some (positions st !! k) ->
                  is_Some (ledger !! k) \/ k ∈ filled new).
Proof.
  intros Hprices.
  destruct (execute_top_trace opps ledger capital w Hprices)
    as (st & new & Hrun & Htr & Hloop & Hn & Hfile).
  exists st, new.
  destruct (loop_trace_ledger _ _ _ _ _ _ Hloop)
    as (Hkeep & Hfilled & Hdom & Hnodup).
  done.
Qed.

(** * Further properties *)

(** ** ContractResolver: where an id comes from, and how the loop ends *)



Lemma resolve_loop_stops tokens n good bad rest i r :
  py_len tokens = Some n ->
  i + length good < n ->
  py_lower bad = None ->
  resolve_loop tokens i (good ++ bad :: rest) r = resolve_loop tokens i good r.
Proof.
  intros Hn Hi Hbad. revert i r Hi.
  induction good as [|g good IH]; intros i r Hi; simpl.
  - unfold resolve_step. rewrite Hn. cbn [mbind option_bind].
    destruct (Nat.ltb_spec i n); [|simpl in Hi; lia].
    by rewrite Hbad.
  - destruct (resolve_step tokens i g r); [|done].
    apply IH. simpl in Hi. lia.
Qed.

(** X2. An outcome entry that is not a string, standing at an index the
    contract-id array reaches, ends the resolver's loop: the matches made
    before it are kept and every label after it is ignored. *)
Theorem get_token_ids_stops_at_non_string market ts os toks good bad rest :
  market !! "clobTokenIds" = Some (PStr ts) ->
  market !! "outcomes" = Some (PStr os) ->
  ts <> EmptyString -> os <> EmptyString ->
  json_loads ts = Some (PList toks) ->
  json_loads os = Some (PList (good ++ bad :: rest)) ->
  py_lower bad = None ->
  length good < length toks ->
  get_token_ids market = resolve_loop (PList toks) 0 good null_ref.
Proof.
  intros Ht Ho Hts Hos Hjt Hjo Hbad Hlen.
  rewrite (get_token_ids_decoded _ _ _ _ _ Ht Ho Hts Hos Hjt Hjo).
  by apply (resolve_loop_stops (PList toks) (length toks)).
Qed.

(** ** EligibilityFilter: filtering again *)

Lemma parsed_hours_annotated now m h v :
  parsed_hours now (<["_volume" := PFloat v]> (<["_hours" := PFloat h]> m))
  = parsed_hours now m.
Proof.
  unfold parsed_hours, py_get. by rewrite !lookup_insert_ne.
Qed.

Lemma parsed_volume_annotated m h v :
  parsed_volume (<["_volume" := PFloat v]> (<["_hours" := PFloat h]> m))
  = parsed_volume m.
Proof.
  unfold parsed_volume, volume_field, py_get. by rewrite !lookup_insert_ne.
Qed.

Lemma filter_step_fixed now m m' :
  filter_step now m = Some m' -> filter_step now m' = Some m'.
Proof.
  intros (h & v & Hh & Hv & Hlo & Hhi & Hvol & ->)%filter_step_Some.
  apply filter_step_Some. exists h, v.
  rewrite parsed_hours_annotated, parsed_volume_annotated.
  repeat split; try done.
  rewrite (insert_insert_ne _ "_hours" "_volume") by done.
  by rewrite insert_insert_eq, insert_insert_eq.
Qed.

(** X3. Filtering is idempotent at a given instant: the annotations
    [_hours] and [_volume] do not disturb the fields the filter reads, so
    filtering the filtered list again returns it unchanged. *)
Theorem filter_markets_idempotent now markets :
  filter_markets now (filter_markets now markets) = filter_markets now markets.
Proof.
  induction markets as [|m markets IH]; [done|].
  cbn [filter_markets].
  destruct (filter_step now m) as [m'|] eqn:E; [|done].
  cbn [filter_markets]. rewrite (filter_step_fixed _ _ _ E). by rewrite IH.
Qed.

(** ** OrderBookAnalyzer: malformed levels and the order of the book *)

Lemma parse_levels_malformed side a :
  a ∈ side -> parse_level a = None -> parse_levels side = None.
Proof.
  intros Hin Ha. induction side as [|x side IH]; [by apply elem_of_nil in Hin|].
  apply elem_of_cons in Hin as [<-|Hin]; simpl.
  - by rewrite Ha.
  - rewrite (IH Hin). by destruct (parse_level x).
Qed.

(** X4. One resting order whose price or size does not convert to a number
    voids the whole book: [analyze_ob] returns no summary, whichever side
    the order is on and however good the other orders are. *)
Theorem analyze_ob_malformed_level token_id w ex b a :
  get_order_book (exchange w) token_id = (ex, Some b) ->
  a ∈ asks b \/ a ∈ bids b ->
  py_float (lv_price a) = None \/ py_float (lv_size a) = None ->
  snd (analyze_ob token_id w) = None.
Proof.
  intros Hbook Hin Hbad. unfold analyze_ob. rewrite Hbook. simpl.
  assert (parse_level a = None) as Ha.
  { unfold parse_level. destruct Hbad as [->| ->]; [done|].
    by destruct (py_float (lv_price a)). }
  destruct Hin as [Hin|Hin].
  - by rewrite (parse_levels_malformed _ _ Hin Ha).
  - rewrite (parse_levels_malformed (bids b) _ Hin Ha).
    by destruct (parse_levels (asks b)) as [[|? ?]|].
Qed.









(** ** OpportunityRanker: what every opportunity satisfies *)

Lemma find_opps_all_opportunities markets positions w :
  Forall (is_opportunity positions) (snd (find_opps markets positions w)).
Proof.
  rewrite find_opps_sorted, sort_by_yield_desc_perm.
  apply collect_opps_spec.
Qed.

Lemma yield_in_band p :
  (0.90 <= p)%Q -> (p <= 0.98)%Q ->
  ((1 # 49) <= (1 - p) / p)%Q /\ ((1 - p) / p <= (1 # 9))%Q.
Proof.
  intros Hlo Hhi. assert (0 < p)%Q as Hpos by lra. split.
  - apply Qle_shift_div_l; [done|]. lra.
  - apply Qle_shift_div_r; [done|]. lra.
Qed.

(** X6. Inside the price band the yield test decides nothing: for every
    ask in [[0.90, 0.98]] the yield [(1 - ask) / ask] lies between 1/49 and
    1/9, above [MIN_YIELD], so the test [y >= MIN_YIELD] of [find_opps]
    always passes, and every opportunity returned has its yield in that
    range. *)
Theorem find_opps_yield_range markets positions w :
  (forall p, (0.90 <= p)%Q -> (p <= 0.98)%Q ->
             Qle_bool MIN_YIELD ((1 - p) / p) = true)
  /\ Forall (fun opp =>
              ((1 # 49) <= _yield opp)%Q /\ (_yield opp <= (1 # 9))%Q
              /\ (MIN_YIELD < _yield opp)%Q)
       (snd (find_opps markets positions w)).
Proof.
  split.
  - intros p Hlo Hhi. apply Qle_bool_iff.
    destruct (yield_in_band p Hlo Hhi) as [Hy _].
    unfold MIN_YIELD. lra.
  - eapply Forall_impl; [apply find_opps_all_opportunities|].
    intros opp (tid & w1 & w2 & _ & _ & _ & _ & _ & _ & _ & _ & Hlo & Hhi & Hy & _).
    destruct (yield_in_band _ Hlo Hhi) as [Hy1 Hy2].
    rewrite Hy. unfold MIN_YIELD. repeat split; try done. lra.
Qed.

Lemma find_opps_step_skip positions w opps m :
  match no (get_token_ids m) with
  | None => True
  | Some tid => tid = EmptyString \/ is_Some (positions !! Some tid)
  end ->
  find_opps_step positions (w, opps) m = (w, opps).
Proof.
  unfold find_opps_step.
  destruct (no (get_token_ids m)) as [tid|]; [|done].
  intros [->|Hheld]; [done|].
  destruct (truthy (PStr tid)); [|done]. simpl.
  by rewrite bool_decide_eq_true_2.
Qed.

(** X7. Markets whose "no" side is unresolved, empty or already in the
    ledger cost nothing: when every market of the list is such a market,
    [find_opps] returns no opportunity and leaves the world as it was, no
    order book having been asked for. *)
Theorem find_opps_held_untouched markets positions w :
  Forall (fun m => match no (get_token_ids m) with
                   | None => True
                   | Some tid =>
                       tid = EmptyString \/ is_Some (positions !! Some tid)
                   end) markets ->
  find_opps markets positions w = (w, []).
Proof.
  intros Hall. unfold find_opps, collect_opps.
  assert (fold_left (find_opps_step positions) markets (w, []) = (w, []))
    as ->; [|done].
  induction Hall as [|m markets Hm _ IH]; [done|].
  cbn [fold_left]. by rewrite find_opps_step_skip.
Qed.

Lemma yield_antitone pa pb :
  (0 < pa)%Q -> (0 < pb)%Q -> (pb < pa)%Q ->
  ((1 - pa) / pa < (1 - pb) / pb)%Q.
Proof.
  intros Ha Hb Hlt.
  apply Qlt_shift_div_l; [done|].
  assert ((1 - pa) / pa * pb == ((1 - pa) * pb) / pa)%Q as ->.
  { field. intros Hz. rewrite Hz in Ha. by apply (Qlt_irrefl 0). }
  apply Qlt_shift_div_r; [done|]. nra.
Qed.

Lemma StronglySorted_transfer {A} (R R' : A -> A -> Prop) (P : A -> Prop) l :
  (forall a b, P a -> P b -> R a b -> R' a b) ->
  Forall P l -> StronglySorted R l -> StronglySorted R' l.
Proof.
  intros HR HP Hs. induction Hs as [|a l Hl IH Ha]; [constructor|].
  inversion HP as [|? ? Pa Pl]; subst.
  constructor; [by apply IH|].
  rewrite Forall_forall in *. intros b Hb. apply HR; auto.
Qed.

(** X8. Ranking by descending yield is ranking by ascending price: along
    the list [find_opps] returns, prices never decrease, so the cheapest
    contract comes first. *)
Theorem find_opps_cheapest_first markets positions w :
  StronglySorted (fun a b => (_price a <= _price b)%Q)
    (snd (find_opps markets positions w)).
Proof.
  eapply (StronglySorted_transfer
            (fun a b => (_yield b <= _yield a)%Q) _ (is_opportunity positions)).
  - intros a b
      (? & ? & ? & _ & _ & _ & _ & _ & _ & _ & _ & Ha & _ & Hya & _)
      (? & ? & ? & _ & _ & _ & _ & _ & _ & _ & _ & Hb & _ & Hyb & _) Hle.
    destruct (Qlt_le_dec (_price b) (_price a)) as [Hlt|]; [|done].
    exfalso. rewrite Hya, Hyb in Hle.
    apply (Qlt_not_le _ _ (yield_antitone (_price a) (_price b)
                             ltac:(lra) ltac:(lra) Hlt)).
    exact Hle.
  - apply find_opps_all_opportunities.
  - rewrite find_opps_sorted. apply sort_by_yield_desc_sorted.
Qed.


(** ** Sizer/Executor: the threshold in capital, the order, the one exception *)


Lemma stake_threshold capital :
  (stake_of capital < 0.50)%Q <-> (capital < 5)%Q.
Proof.
  unfold stake_of, py_min, POSITION_SIZE_PCT, MAX_POSITION_SIZE.
  destruct (Qlt_bool 10 (capital * 0.10)) eqn:E.
  - apply Qlt_bool_iff in E. split; intros H; lra.
  - apply Qlt_bool_false in E. split; intros H; lra.
Qed.

(** X10. In terms of capital, [place_trade] trades exactly from 5 currency
    units up: with less than 5 it returns [None] and submits nothing; with
    5 or more it submits one order. *)
Theorem place_trade_capital_threshold opp capital (w : World Exchange) :
  ~ (_price opp == 0)%Q ->
  ((capital < 5)%Q -> place_trade opp capital w = Some (w, PNone))
  /\ ((5 <= capital)%Q ->
      exists ex result,
        place_trade opp capital w
        = Some ({| exchange := ex;
                   positions_file := positions_file w;
                   trace := trace w ++ [EvOrder (order_for opp capital) result] |},
                default PNone result)).
Proof.
  intros Hprice.
  destruct (place_trade_cases opp capital w Hprice) as [Hlow Hsubmit].
  split.
  - intros Hc. apply Hlow. by apply stake_threshold.
  - intros Hc. destruct Hsubmit as (ex & result & _ & Hplace).
    + destruct (Qlt_le_dec (stake_of capital) 0.50) as [Hlt|]; [|done].
      apply stake_threshold in Hlt. lra.
    + by exists ex, result.
Qed.




(** ** CycleOrchestrator: what the execution loop leaves alone *)

Lemma run_trades_low_capital opps (st : CycleState Exchange) :
  (balance st < 5)%Q ->
  Forall (fun opp => ~ (_price opp == 0)%Q) opps ->
  run_trades opps st = Some st.
Proof.
  intros Hlow Hprices. induction Hprices as [|opp opps Hprice _ IH]; [done|].
  cbn [run_trades].
  apply stake_threshold in Hlow.
  destruct (trade_step_cases st opp Hprice)
    as [[_ Hstep]|[(_ & _ & Hstep)|[(_ & Hok & _)|(_ & Hok & _)]]];
    try (rewrite Hstep; exact IH); lra.
Qed.

(** X13. With less than 5 currency units of capital the execution loop
    does nothing at all: it submits no order, saves nothing, does not read
    the balance again, and ends in the state it started in. *)
Theorem execute_top_low_capital opps ledger capital (w : World Exchange) :
  (capital < 5)%Q ->
  Forall (fun opp => ~ (_price opp == 0)%Q) opps ->
  execute_top opps ledger capital w
  = Some {| positions := ledger; balance := capital; trades := 0; world := w |}.
Proof.
  intros Hlow Hprices. unfold execute_top.
  apply run_trades_low_capital; [done|by apply Forall_take].
Qed.

Lemma loop_trace_growth opps l b tr l' b' :
  loop_trace opps l b tr l' b' ->
  size l' = size l + length (filled tr)
  /\ length (filled tr) <= length opps.
Proof.
  induction 1 as [|? ? ? ? ? ? ? ? ? IH|? ? ? ? ? ? ? ? ? ? IH
                  |? ? ? ? result ? ? ? ? ? Hfalsy ? IH
                  |opp ? l b oid entry ? ? ? ? Hfree ? Hoid ? IH].
  - simpl. split; lia.
  - simpl. lia.
  - simpl. lia.
  - rewrite filled_failed by done. simpl. lia.
  - rewrite filled_traded by done. simpl.
    rewrite map_size_insert_None in IH by done. lia.
Qed.

(** X14. The execution loop fills at most three orders, and the ledger
    grows by exactly one entry per filled order. *)
Theorem execute_top_ledger_growth opps ledger capital (w : World Exchange) :
  Forall (fun opp => ~ (_price opp == 0)%Q) opps ->
  exists st,
    execute_top opps ledger capital w = Some st
    /\ trades st <= 3
    /\ trades st <= length opps
    /\ size (positions st) = size ledger + trades st.
Proof.
  intros Hprices.
  destruct (execute_top_trace opps ledger capital w Hprices)
    as (st & new & Hrun & _ & Hloop & Hn & _).
  destruct (loop_trace_growth _ _ _ _ _ _ Hloop) as [Hsize Hlen].
  rewrite length_take in Hlen.
  exists st. rewrite Hn. repeat split; try done; lia.
Qed.

Lemma loop_trace_submitted_free opps l b tr l' b' :
  loop_trace opps l b tr l' b' ->
  forall tid, tid ∈ submitted tr -> l !! tid = None.
Proof.
  induction 1 as [|? ? ? ? ? ? ? ? ? IH|? ? ? ? ? ? ? ? ? ? IH
                  |opp ? ? ? result ? ? ? Hfree ? Hfalsy ? IH
                  |opp ? l b oid entry ? ? ? ? Hfree ? Hoid ? IH];
    intros tid Hin; try (by apply IH).
  - by apply elem_of_nil in Hin.
  - cbn in Hin. apply elem_of_cons in Hin as [->|Hin]; [done|by apply IH].
  - cbn in Hin. apply elem_of_cons in Hin as [->|Hin]; [done|].
    specialize (IH tid Hin). by apply lookup_insert_None in IH as [? _].
Qed.

(** X15. The execution loop never submits an order for a contract id that
    is in the ledger it was started with. *)
Theorem execute_top_never_orders_held opps ledger capital (w : World Exchange) :
  Forall (fun opp => ~ (_price opp == 0)%Q) opps ->
  exists st new,
    execute_top opps ledger capital w = Some st
    /\ trace (world st) = trace w ++ new
    /\ forall tid, is_Some (ledger !! tid) -> tid ∉ submitted new.
Proof.
  intros Hprices.
  destruct (execute_top_trace opps ledger capital w Hprices)
    as (st & new & Hrun & Htr & Hloop & _).
  exists st, new. repeat split; try done.
  intros tid [v Hv] Hin.
  rewrite (loop_trace_submitted_free _ _ _ _ _ _ Hloop tid Hin) in Hv. done.
Qed.


(** X17. What the next [load_positions] sees after the execution loop: if
    an order was filled, the decoded text of the final ledger; if none was,
    what it would have seen before the loop. *)
Theorem execute_top_then_load opps ledger capital (w : World Exchange) :
  Forall (fun opp => ~ (_price opp == 0)%Q) opps ->
  exists st new,
    execute_top opps ledger capital w = Some st
    /\ trace (world st) = trace w ++ new
    /\ (filled new <> [] ->
        load_positions (world st)
        = default (PDict ∅) (json_loads (json_dumps (positions st))))
    /\ (filled new = [] -> load_positions (world st) = load_positions w).
Proof.
  intros Hprices.
  destruct (execute_top_trace opps ledger capital w Hprices)
    as (st & new & Hrun & Htr & _ & _ & Hfile).
  exists st, new. repeat split; try done.
  - intros Hne. unfold load_positions. rewrite Hfile.
    destruct (filled new); [done|]. by destruct (json_loads _).
  - intros Hnone. unfold load_positions. by rewrite Hfile, Hnone.
Qed.

(** ** MarketSource: pagination *)

Lemma fetch_loop_world fuel offset all_markets (w w' : World Exchange) res :
  fetch_loop fuel offset all_markets w = Some (w', res) ->
  positions_file w' = positions_file w /\ trace w' = trace w.
Proof.
  revert offset all_markets w. induction fuel as [|fuel IH];
    intros offset all_markets w; [done|].
  cbn [fetch_loop].
  destruct (http_get_markets (exchange w) offset) as [ex [body|]];
    [|by intros [= <- _]].
  destruct (negb (truthy (unwrap_data body))); [by intros [= <- _]|].
  destruct (py_iter (unwrap_data body)) as [items|]; [|by intros [= <- _]].
  destruct (py_len (unwrap_data body)) as [n|]; [|by intros [= <- _]].
  destruct (Nat.ltb n 100); [by intros [= <- _]|].
  intros H. by destruct (IH _ _ _ H).
Qed.

Lemma truthy_PList_take (l : list pyval) :
  truthy (PList (take 100 l)) = match l with [] => false | _ :: _ => true end.
Proof. by destruct l. Qed.

Lemma fetch_loop_serves L fuel offset all_markets (w : World Exchange) :
  (forall ex o, exists body,
      snd (http_get_markets ex o) = Some body
      /\ unwrap_data body = PList (take 100 (drop o L))) ->
  length (drop offset L) < 100 * fuel ->
  exists w',
    fetch_loop fuel offset all_markets w
    = Some (w', all_markets ++ drop offset L).
Proof.
  intros Hserve. revert offset all_markets w.
  induction fuel as [|fuel IH]; intros offset all_markets w Hfuel; [lia|].
  cbn [fetch_loop].
  destruct (Hserve (exchange w) offset) as (body & Hbody & Hpage).
  destruct (http_get_markets (exchange w) offset) as [ex resp].
  simpl in Hbody. subst resp. rewrite Hpage, truthy_PList_take.
  destruct (drop offset L) as [|x rem] eqn:Erem.
  - eexists. by rewrite app_nil_r.
  - cbn [negb py_iter py_len]. rewrite length_take.
    destruct (Nat.ltb_spec (100 `min` length (x :: rem)) 100) as [Hshort|Hfull].
    + eexists. rewrite take_ge by lia. done.
    + destruct (IH (offset + 100) (all_markets ++ take 100 (x :: rem))
                  (set_exchange ex w)) as [w' Hw'].
      * rewrite <- drop_drop, Erem, length_drop. lia.
      * exists w'. rewrite Hw', <- drop_drop, Erem, <- app_assoc.
        by rewrite take_drop.
Qed.

(** X18. Against a catalog that serves a list [L] in pages of up to 100
    items (bare, or wrapped in a dict under ['data']), [fetch_markets]
    returns exactly [L], in order, once it may make more than
    [length L / 100] requests; it touches neither the ledger file nor the
    trace. *)
Theorem fetch_markets_reassembles L fuel (w : World Exchange) :
  (forall ex o, exists body,
      snd (http_get_markets ex o) = Some body
      /\ unwrap_data body = PList (take 100 (drop o L))) ->
  length L < 100 * fuel ->
  exists w',
    fetch_markets fuel w = Some (w', L)
    /\ positions_file w' = positions_file w
    /\ trace w' = trace w.
Proof.
  intros Hserve Hfuel.
  destruct (fetch_loop_serves L fuel 0 [] w Hserve) as [w' Hw']; [done|].
  exists w'. split; [exact Hw'|]. by apply (fetch_loop_world _ _ _ _ _ _ Hw').
Qed.

Lemma fetch_loop_fails L k fuel j all_markets (w : World Exchange) :
  (forall ex i, i < k -> exists body,
      snd (http_get_markets ex (100 * i)) = Some body
      /\ unwrap_data body = PList (take 100 (drop (100 * i) L))) ->
  (forall ex, snd (http_get_markets ex (100 * k)) = None) ->
  100 * k <= length L ->
  j <= k -> k - j < fuel ->
  exists w',
    fetch_loop fuel (100 * j) all_markets w
    = Some (w', all_markets ++ take (100 * (k - j)) (drop (100 * j) L)).
Proof.
  intros Hpages Hfail Hlen. revert j all_markets w.
  induction fuel as [|fuel IH]; intros j all_markets w Hj Hfuel; [lia|].
  cbn [fetch_loop].
  destruct (decide (j = k)) as [->|Hne].
  - specialize (Hfail (exchange w)).
    destruct (http_get_markets (exchange w) (100 * k)) as [ex resp].
    simpl in Hfail. subst resp. eexists.
    by rewrite Nat.sub_diag, Nat.mul_0_r, take_0, app_nil_r.
  - destruct (Hpages (exchange w) j ltac:(lia)) as (body & Hbody & Hpage).
    destruct (http_get_markets (exchange w) (100 * j)) as [ex resp].
    simpl in Hbody. subst resp. rewrite Hpage, truthy_PList_take.
    assert (100 <= length (drop (100 * j) L)) as Hfull
      by (rewrite length_drop; lia).
    destruct (drop (100 * j) L) as [|x rem] eqn:Erem; [simpl in Hfull; lia|].
    cbn [negb py_iter py_len]. rewrite length_take.
    destruct (Nat.ltb_spec (100 `min` length (x :: rem)) 100); [lia|].
    replace (100 * j + 100) with (100 * S j) by lia.
    destruct (IH (S j) (all_markets ++ take 100 (x :: rem)) (set_exchange ex w))
      as [w' Hw']; [lia|lia|].
    exists w'. rewrite Hw', <- app_assoc. f_equal. f_equal.
    replace (100 * S j) with (100 * j + 100) by lia.
    rewrite <- drop_drop, Erem, take_take_drop.
    by replace (100 + 100 * (k - S j)) with (100 * (k - j)) by lia.
Qed.

(** X19. A failure in the middle of the pagination is not an error: when
    the first [k] pages of the catalog [L] come back full and the request
    for the next page raises, [fetch_markets] returns the [100 * k] markets
    received so far. *)
Theorem fetch_markets_partial_on_failure L k fuel (w : World Exchange) :
  (forall ex i, i < k -> exists body,
      snd (http_get_markets ex (100 * i)) = Some body
      /\ unwrap_data body = PList (take 100 (drop (100 * i) L))) ->
  (forall ex, snd (http_get_markets ex (100 * k)) = None) ->
  100 * k <= length L ->
  k < fuel ->
  exists w',
    fetch_markets fuel w = Some (w', take (100 * k) L)
    /\ positions_file w' = positions_file w
    /\ trace w' = trace w.
Proof.
  intros Hpages Hfail Hlen Hfuel.
  destruct (fetch_loop_fails L k fuel 0 [] w Hpages Hfail Hlen)
    as [w' Hw']; [lia|lia|].
  rewrite Nat.sub_0_r in Hw'. simpl in Hw'.
  exists w'. split; [exact Hw'|]. by apply (fetch_loop_world _ _ _ _ _ _ Hw').
Qed.

(** X20. [fetch_markets] has no page limit: against a catalog that answers
    every request with 100 items or more, the loop is still running after
    any number of requests. *)
Theorem fetch_markets_no_page_limit fuel (w : World Exchange) :
  (forall ex o, exists body items,
      snd (http_get_markets ex o) = Some body
      /\ unwrap_data body = PList items
      /\ 100 <= length items) ->
  fetch_markets fuel w = None.
Proof.
  intros Hfull. unfold fetch_markets.
  assert (forall offset all_markets (w0 : World Exchange),
             fetch_loop fuel offset all_markets w0 = None) as Hloop; [|done].
  clear w.
  induction fuel as [|fuel IH]; intros offset all_markets w; [done|].
  cbn [fetch_loop].
  destruct (Hfull (exchange w) offset) as (body & items & Hbody & Hpage & Hlen).
  destruct (http_get_markets (exchange w) offset) as [ex resp].
  simpl in Hbody. subst resp. rewrite Hpage.
  destruct items as [|x items]; [simpl in Hlen; lia|].
  cbn [truthy negb py_iter py_len].
  destruct (Nat.ltb_spec (length (x :: items)) 100); [lia|].
  apply IH.
Qed.

(** ** CycleOrchestrator: the whole cycle *)

Lemma find_opps_step_world positions (w w' : World Exchange) opps opps' m :
  find_opps_step positions (w, opps) m = (w', opps') ->
  positions_file w' = positions_file w /\ trace w' = trace w.
Proof.
  unfold find_opps_step.
  destruct (no (get_token_ids m)) as [tid|]; [|by intros [= <- _]].
  destruct (negb (truthy (PStr tid)) || _); [by intros [= <- _]|].
  unfold analyze_ob.
  destruct (get_order_book (exchange w) tid) as [ex book].
  destruct (summarize book) as [ob|]; [|by intros [= <- _]].
  destruct (Qlt_bool MAX_SPREAD (spread ob) || _); [by intros [= <- _]|].
  destruct (Qle_bool 0.90 (ask ob) && _); [|by intros [= <- _]].
  destruct (Qle_bool MIN_YIELD _); by intros [= <- _].
Qed.

Lemma find_opps_world markets positions (w w' : World Exchange) opps :
  find_opps markets positions w = (w', opps) ->
  positions_file w' = positions_file w /\ trace w' = trace w.
Proof.
  unfold find_opps, collect_opps.
  destruct (fold_left _ markets (w, [])) as [w1 acc] eqn:Efold.
  intros [= <- _]. clear opps.
  revert Efold. generalize (@nil Opp) as acc0. revert w.
  induction markets as [|m markets IH]; intros w acc0; cbn [fold_left].
  - by intros [= <- _].
  - destruct (find_opps_step positions (w, acc0) m) as [w2 acc2] eqn:Estep.
    intros Hfold. destruct (find_opps_step_world _ _ _ _ _ _ Estep) as [Hf Ht].
    destruct (IH _ _ Hfold) as [Hf' Ht']. split; congruence.
Qed.

Lemma ledger_of_fold_held stored markets tid :
  is_Some (foldr (fun m acc =>
                    match no (get_token_ids m) with
                    | Some tid0 =>
                        if default false (py_in (Some tid0) stored)
                        then <[Some tid0 := PNone]> acc else acc
                    | None => acc
                    end) (∅ : Ledger) markets !! Some tid) ->
  default false (py_in (Some tid) stored) = true.
Proof.
  induction markets as [|m markets IH]; cbn [foldr]; [by intros [? ?]|].
  destruct (no (get_token_ids m)) as [t|]; [|done].
  destruct (default false (py_in (Some t) stored)) eqn:Eheld; [|done].
  destruct (decide (t = tid)) as [->|Hne]; [done|].
  rewrite lookup_insert_ne by congruence. done.
Qed.

Lemma ledger_of_fold_listed stored markets m tid :
  m ∈ markets ->
  no (get_token_ids m) = Some tid ->
  default false (py_in (Some tid) stored) = true ->
  is_Some (foldr (fun m acc =>
                    match no (get_token_ids m) with
                    | Some tid0 =>
                        if default false (py_in (Some tid0) stored)
                        then <[Some tid0 := PNone]> acc else acc
                    | None => acc
                    end) (∅ : Ledger) markets !! Some tid).
Proof.
  intros Hin Htid Hheld.
  induction markets as [|m0 markets IH]; [by apply elem_of_nil in Hin|].
  cbn [foldr]. apply elem_of_cons in Hin as [<-|Hin].
  - rewrite Htid, Hheld, lookup_insert_eq. by eexists.
  - destruct (no (get_token_ids m0)) as [t|]; [|by apply IH].
    destruct (default false (py_in (Some t) stored)); [|by apply IH].
    destruct (decide (t = tid)) as [->|Hne].
    + rewrite lookup_insert_eq. by eexists.
    + rewrite lookup_insert_ne by congruence. by apply IH.
Qed.

(** [ledger_of] answers the membership tests of [find_opps] as Python
    answers [tid in positions]: for every "no" id [tid] of a market of the
    list, [Some tid] is a key of the ledger exactly when the test is
    true. *)
Lemma ledger_of_membership stored markets m tid :
  is_Some (py_len stored) ->
  m ∈ markets ->
  no (get_token_ids m) = Some tid ->
  is_Some (ledger_of stored markets !! Some tid)
  <-> py_in (Some tid) stored = Some true.
Proof.
  intros Hsized Hin Htid.
  destruct stored as [| | | |s|l|d]; try (by destruct Hsized).
  - split.
    + intros Hheld%ledger_of_fold_held. cbn in *. by rewrite Hheld.
    + intros Hheld. apply (ledger_of_fold_listed _ _ m); [done..|].
      by rewrite Hheld.
  - split.
    + intros Hheld%ledger_of_fold_held. cbn in *. by rewrite Hheld.
    + intros Hheld. apply (ledger_of_fold_listed _ _ m); [done..|].
      by rewrite Hheld.
  - cbn [ledger_of py_in]. rewrite (lookup_kmap Some) by apply _.
    split.
    + intros Hsome. by rewrite bool_decide_eq_true_2.
    + intros [= Hdec]. by apply bool_decide_eq_true in Hdec.
Qed.

(** The stages of [run_cycle], one after the other. *)
Lemma run_cycle_cases private_key wallet_address fuel (w : World Exchange) :
  run_cycle private_key wallet_address fuel w = MissingCredentials w
  \/ (exists ex,
        run_cycle private_key wallet_address fuel w
        = SetupFailed (set_exchange ex w))
  \/ exists w2 capital,
      trace w2 = trace w ++ [EvBalance capital]
      /\ positions_file w2 = positions_file w
      /\ ((py_len (load_positions w2) = None
           /\ run_cycle private_key wallet_address fuel w
              = RaisedBeforeTrading w2)
          \/ (fetch_markets fuel w2 = None
              /\ run_cycle private_key wallet_address fuel w = StillFetching)
          \/ exists w3 items,
              fetch_markets fuel w2 = Some (w3, items)
              /\ is_Some (py_len (load_positions w2))
              /\ ((all_dicts items = None
                   /\ run_cycle private_key wallet_address fuel w
                      = RaisedBeforeTrading w3)
                  \/ exists ms w4 opps,
                      all_dicts items = Some ms
                      /\ find_opps (filter_markets (utc_now (exchange w3)) ms)
                           (ledger_of (load_positions w2)
                              (filter_markets (utc_now (exchange w3)) ms)) w3
                         = (w4, opps)
                      /\ trace w4 = trace w2
                      /\ positions_file w4 = positions_file w
                      /\ ((forallb log_line_ok (take 5 opps) = false
                           /\ run_cycle private_key wallet_address fuel w
                              = RaisedBeforeTrading w4)
                          \/ (forallb log_line_ok (take 5 opps) = true
                              /\ run_cycle private_key wallet_address fuel w
                                 = match load_positions w2 with
                                   | PDict d =>
                                       match execute_top opps (kmap Some d)
                                               capital w4 with
                                       | Some st =>
                                           CycleDone (trades st) (world st)
                                       | None => RaisedInTrading
                                       end
                                   | stored =>
                                       run_trades_unkeyed stored (take 3 opps)
                                         capital w4
                                   end)))).
Proof.
  unfold run_cycle.
  destruct (negb (truthy (PStr private_key)) || _); [by left|].
  destruct (setup_client (exchange w)) as [ex ok].
  destruct ok; cbn [negb]; [|right; left; by exists ex].
  right; right. unfold get_balance.
  destruct (read_balance (exchange (set_exchange ex w))) as [ex2 capital].
  set (w2' := emit (EvBalance capital) (set_exchange ex2 (set_exchange ex w))).
  exists w2', capital. split; [reflexivity|]. split; [reflexivity|].
  set (stored := load_positions w2').
  destruct (py_len stored) as [n|] eqn:Elen; [|by left].
  right.
  destruct (fetch_markets fuel w2') as [[w3 items]|] eqn:Efetch; [|by left].
  right. exists w3, items. split; [done|]. split; [by eexists|].
  destruct (fetch_loop_world _ _ _ _ _ _ Efetch) as [Hf3 Ht3].
  unfold filter_markets_items.
  destruct (all_dicts items) as [ms|]; cbn [mbind option_bind]; [|by left].
  right.
  destruct (find_opps _ _ w3) as [w4 opps] eqn:Eopps.
  destruct (find_opps_world _ _ _ _ _ Eopps) as [Hf4 Ht4].
  exists ms, w4, opps. split; [done|]. split; [done|].
  split; [by rewrite Ht4, Ht3|]. split; [by rewrite Hf4, Hf3|].
  destruct (forallb log_line_ok (take 5 opps)); cbn [negb]; [right|left];
    [split; [done|by destruct stored]|done].
Qed.

Lemma submitted_other e tr :
  match e with EvOrder _ _ => False | _ => True end ->
  submitted (e :: tr) = submitted tr.
Proof. by destruct e. Qed.

(** The loop on a ledger that is a list or a str: it ends without a fill,
    or raises right after the first one. *)
Lemma run_trades_unkeyed_trace stored opps capital (w : World Exchange) :
  (exists l, stored = PList l) \/ (exists s, stored = PStr s) ->
  Forall (fun opp => ~ (_price opp == 0)%Q /\ is_Some (no (_tids opp))) opps ->
  exists w' new,
    trace w' = trace w ++ new
    /\ positions_file w' = positions_file w
    /\ sublist (submitted new) ((fun opp => no (_tids opp)) <$> opps)
    /\ ((run_trades_unkeyed stored opps capital w = CycleDone 0 w'
         /\ filled new = [])
        \/ (run_trades_unkeyed stored opps capital w = RaisedOnRecord w'
            /\ exists pre order oid,
                new = pre ++ [EvOrder order (Some oid)]
                /\ truthy oid = true /\ filled pre = [])).
Proof.
  intros Hstored Hopps. revert w.
  induction Hopps as [|opp opps [Hprice [tid Htid]] _ IH]; intros w.
  - exists w, []. rewrite app_nil_r.
    split; [done|]. split; [done|]. split; [apply sublist_nil_l|by left].
  - cbn [run_trades_unkeyed]. rewrite Htid.
    assert (exists held, py_in (Some tid) stored = Some held) as [held ->]
      by (destruct Hstored as [[l ->]|[s ->]]; by eexists).
    destruct held.
    + destruct (IH w) as (w' & new & Htr & Hf & Hsub & Hout).
      exists w', new. repeat split; try done.
      cbn [fmap list_fmap]. rewrite Htid. by apply sublist_cons.
    + destruct (place_trade_cases opp capital w Hprice) as [Hlow Hsubmit].
      destruct (Qlt_le_dec (stake_of capital) 0.50) as [Hlt|Hge].
      * rewrite (Hlow Hlt). cbn [truthy].
        destruct (IH w) as (w' & new & Htr & Hf & Hsub & Hout).
        exists w', new. repeat split; try done.
        cbn [fmap list_fmap]. rewrite Htid. by apply sublist_cons.
      * destruct (Hsubmit Hge) as (ex & result & _ & ->).
        destruct (truthy (default PNone result)) eqn:Etruthy.
        -- apply truthy_default_true in Etruthy as (oid & -> & Hoid).
           exists {| exchange := ex; positions_file := positions_file w;
                     trace := trace w
                              ++ [EvOrder (order_for opp capital) (Some oid)] |},
             [EvOrder (order_for opp capital) (Some oid)].
           split; [reflexivity|]. split; [reflexivity|]. split.
           ++ cbn. rewrite Htid. apply sublist_skip, sublist_nil_l.
           ++ right. split; [done|].
              by exists [], (order_for opp capital), oid.
        -- match goal with |- context [run_trades_unkeyed _ _ _ ?w1] =>
             destruct (IH w1) as (w' & new & Htr & Hf & Hsub & Hout) end.
           exists w', (EvOrder (order_for opp capital) result :: new).
           cbn [trace] in Htr. rewrite Htr, <- app_assoc.
           split; [done|]. split; [done|]. split.
           ++ cbn. rewrite Htid. by apply sublist_skip.
           ++ destruct Hout as [[Hout Hfilled]
                               |[Hout (pre & order & oid & -> & Hoid & Hpre)]].
              ** left. by rewrite filled_failed.
              ** right. split; [done|].
                 exists (EvOrder (order_for opp capital) result :: pre), order, oid.
                 by rewrite filled_failed.
Qed.

Lemma find_opps_result_ok markets positions (w w' : World Exchange) opps :
  find_opps markets positions w = (w', opps) ->
  Forall (fun opp => ~ (_price opp == 0)%Q /\ is_Some (no (_tids opp))) opps.
Proof.
  intros Heq.
  pose proof (find_opps_all_opportunities markets positions w) as Hall.
  rewrite Heq in Hall. simpl in Hall.
  eapply Forall_impl; [exact Hall|]. intros opp Hopp. split.
  - by apply (is_opportunity_price_nonzero positions).
  - destruct Hopp as (tid & _ & _ & _ & Hno & _). by exists tid.
Qed.

Lemma sized_not_dict stored :
  is_Some (py_len stored) ->
  (exists d, stored = PDict d)
  \/ (exists l, stored = PList l) \/ (exists s, stored = PStr s).
Proof.
  destruct stored; intros [n Hn]; try done; eauto.
Qed.

(** What a cycle that ends has added to the trace. *)
Lemma run_cycle_trace private_key wallet_address fuel (w w' : World Exchange) :
  outcome_world (run_cycle private_key wallet_address fuel w) = Some w' ->
  (trace w' = trace w /\ positions_file w' = positions_file w)
  \/ exists capital new,
      trace w' = trace w ++ EvBalance capital :: new
      /\ length (submitted new) <= 3
      /\ (forall d tid,
            load_positions w = PDict d -> is_Some (d !! tid) ->
            Some tid ∉ submitted new)
      /\ ((exists l, load_positions w = PList l)
          \/ (exists s, load_positions w = PStr s) ->
          positions_file w' = positions_file w
          /\ (filled new <> [] ->
              run_cycle private_key wallet_address fuel w = RaisedOnRecord w')).
Proof.
  intros Hw'.
  destruct (run_cycle_cases private_key wallet_address fuel w)
    as [Heq|[[ex Heq]|(w2 & capital & Ht2 & Hf2 & Hrest)]];
    [rewrite Heq in Hw'; injection Hw' as <-; by left..|].
  assert (load_positions w2 = load_positions w) as Hload
    by (unfold load_positions; by rewrite Hf2).
  right.
  assert (trace w' = trace w2 -> positions_file w' = positions_file w ->
          exists capital0 new,
            trace w' = trace w ++ EvBalance capital0 :: new
            /\ length (submitted new) <= 3
            /\ (forall d tid,
                  load_positions w = PDict d -> is_Some (d !! tid) ->
                  Some tid ∉ submitted new)
            /\ ((exists l, load_positions w = PList l)
                \/ (exists s, load_positions w = PStr s) ->
                positions_file w' = positions_file w
                /\ (filled new <> [] ->
                    run_cycle private_key wallet_address fuel w
                    = RaisedOnRecord w'))) as Hquiet.
  { intros Ht0 Hf0. exists capital, []. rewrite Ht0, Ht2.
    split; [done|]. split; [simpl; lia|]. split.
    - intros d tid _ _ Hin. by apply elem_of_nil in Hin.
    - intros _. split; [done|]. by intros Hne. }
  destruct Hrest as [[_ Heq]|[[_ Heq]|(w3 & items & Hfetch & Hsized & Hrest)]];
    [rewrite Heq in Hw'; injection Hw' as <-; by apply Hquiet
    |by rewrite Heq in Hw'|].
  destruct (fetch_loop_world _ _ _ _ _ _ Hfetch) as [Hf3 Ht3].
  destruct Hrest as [[_ Heq]|(ms & w4 & opps & _ & Hopps & Ht4 & Hf4 & Hrest)];
    [rewrite Heq in Hw'; injection Hw' as <-; apply Hquiet; congruence|].
  destruct Hrest as [[_ Heq]|[_ Heq]];
    [rewrite Heq in Hw'; injection Hw' as <-; by apply Hquiet|].
  clear Hquiet.
  pose proof (find_opps_result_ok _ _ _ _ _ Hopps) as Hok.
  rewrite Hload in *.
  destruct (sized_not_dict _ Hsized) as [[d Hd]|Hnd].
  - rewrite Hd in Heq.
    destruct (execute_top_trace opps (kmap Some d) capital w4) as
      (st & new & Hrun & Htr & Hloop & _).
    { eapply Forall_impl; [exact Hok|]. by intros opp [? _]. }
    rewrite Hrun in Heq. rewrite Heq in Hw'. injection Hw' as <-.
    exists capital, new.
    pose proof (loop_trace_submitted _ _ _ _ _ _ Hloop) as Hsub.
    split; [by rewrite Htr, Ht4, Ht2, <- app_assoc|].
    split.
    { apply sublist_length in Hsub.
      rewrite length_fmap, length_take in Hsub. lia. }
    split.
    + intros d' tid Hd' [v Hv] Hin.
      assert (d' = d) as -> by congruence.
      pose proof (loop_trace_submitted_free _ _ _ _ _ _ Hloop _ Hin) as Hfree.
      rewrite (lookup_kmap Some) in Hfree by apply _. congruence.
    + intros [[l Hl]|[s Hs]]; congruence.
  - assert (run_cycle private_key wallet_address fuel w
            = run_trades_unkeyed (load_positions w) (take 3 opps) capital w4)
      as Heq'
      by (rewrite Heq; destruct Hnd as [[l ->]|[s ->]]; done).
    destruct (run_trades_unkeyed_trace (load_positions w) (take 3 opps)
                capital w4 Hnd) as (w5 & new & Htr & Hf5 & Hsub & Hout).
    { by apply Forall_take. }
    exists capital, new.
    assert (w' = w5) as ->.
    { rewrite Heq' in Hw'.
      destruct Hout as [[Hout _]|[Hout _]]; rewrite Hout in Hw';
        by injection Hw'. }
    split; [by rewrite Htr, Ht4, Ht2, <- app_assoc|].
    split.
    { apply sublist_length in Hsub.
      rewrite length_fmap, length_take in Hsub. lia. }
    split.
    + intros d tid Hd. destruct Hnd as [[l Hl]|[s Hs]]; congruence.
    + intros _. split; [congruence|].
      intros Hfilled. destruct Hout as [[_ Hnone]|[Hout _]]; [done|].
      congruence.
Qed.

(** The trading stage of a cycle never lets an exception of [place_trade]
    or of the membership test out. *)
Lemma run_cycle_not_raised_in_trading private_key wallet_address fuel
    (w : World Exchange) :
  run_cycle private_key wallet_address fuel w <> RaisedInTrading.
Proof.
  destruct (run_cycle_cases private_key wallet_address fuel w)
    as [Heq|[[ex Heq]|(w2 & capital & _ & _ & Hrest)]];
    [by rewrite Heq..|].
  destruct Hrest as [[_ Heq]|[[_ Heq]|(w3 & items & _ & Hsized & Hrest)]];
    [by rewrite Heq..|].
  destruct Hrest as [[_ Heq]|(ms & w4 & opps & _ & Hopps & _ & _ & Hrest)];
    [by rewrite Heq|].
  destruct Hrest as [[_ Heq]|[_ Heq]]; [by rewrite Heq|].
  rewrite Heq.
  pose proof (find_opps_result_ok _ _ _ _ _ Hopps) as Hok.
  destruct (sized_not_dict _ Hsized) as [[d ->]|Hnd].
  - destruct (execute_top_trace opps (kmap Some d) capital w4) as
      (st & new & -> & _); [|done].
    eapply Forall_impl; [exact Hok|]. by intros opp [? _].
  - destruct (run_trades_unkeyed_trace (load_positions w2) (take 3 opps)
                capital w4 Hnd) as (w5 & new & _ & _ & _ & Hout).
    { by apply Forall_take. }
    destruct Hnd as [[l Hl]|[s Hs]]; rewrite ?Hl, ?Hs in *;
      destruct Hout as [[-> _]|[-> _]]; done.
Qed.

(** X21. A cycle never submits more than three orders, however it ends,
    and it never ends by an exception of [place_trade]: the opportunities
    it trades come from [find_opps] and have a price in the band. *)
Theorem run_cycle_at_most_three_orders private_key wallet_address fuel
    (w : World Exchange) :
  run_cycle private_key wallet_address fuel w <> RaisedInTrading
  /\ forall w',
      outcome_world (run_cycle private_key wallet_address fuel w) = Some w' ->
      exists new,
        trace w' = trace w ++ new /\ length (submitted new) <= 3.
Proof.
  split; [apply run_cycle_not_raised_in_trading|].
  intros w' Hw'.
  destruct (run_cycle_trace _ _ _ _ _ Hw')
    as [[Ht _]|(capital & new & Ht & Hlen & _)].
  - exists []. rewrite app_nil_r. split; [done|simpl; lia].
  - exists (EvBalance capital :: new). split; [done|].
    by rewrite submitted_other.
Qed.

(** X22. A cycle never orders what the ledger file already records: when
    the file decodes to a dict, no order of the cycle is for one of its
    keys. *)
Theorem run_cycle_never_orders_persisted private_key wallet_address fuel
    (w w' : World Exchange) text d :
  positions_file w = Content text ->
  json_loads text = Some (PDict d) ->
  outcome_world (run_cycle private_key wallet_address fuel w) = Some w' ->
  exists new,
    trace w' = trace w ++ new
    /\ forall tid, is_Some (d !! tid) -> Some tid ∉ submitted new.
Proof.
  intros Hfile Hjson Hw'.
  assert (load_positions w = PDict d) as Hload
    by (unfold load_positions; by rewrite Hfile, Hjson).
  destruct (run_cycle_trace _ _ _ _ _ Hw')
    as [[Ht _]|(capital & new & Ht & _ & Hheld & _)].
  - exists []. rewrite app_nil_r. split; [done|].
    intros tid _ Hin. by apply elem_of_nil in Hin.
  - exists (EvBalance capital :: new). split; [done|].
    intros tid Htid. rewrite submitted_other by done. by apply (Hheld d).
Qed.

(** X23. A ledger file that holds a JSON array or a JSON string is never
    rewritten, and the first filled order ends the cycle with an
    exception: [positions[tid] = ...] raises after the order went out, so
    the trade is recorded nowhere. *)
Theorem run_cycle_unkeyed_ledger private_key wallet_address fuel
    (w w' : World Exchange) text stored :
  positions_file w = Content text ->
  json_loads text = Some stored ->
  (exists l, stored = PList l) \/ (exists s, stored = PStr s) ->
  outcome_world (run_cycle private_key wallet_address fuel w) = Some w' ->
  positions_file w' = positions_file w
  /\ exists new,
      trace w' = trace w ++ new
      /\ (filled new <> [] ->
          run_cycle private_key wallet_address fuel w = RaisedOnRecord w').
Proof.
  intros Hfile Hjson Hstored Hw'.
  assert (load_positions w = stored) as Hload
    by (unfold load_positions; by rewrite Hfile, Hjson).
  destruct (run_cycle_trace _ _ _ _ _ Hw')
    as [[Ht Hf]|(capital & new & Ht & _ & _ & Hunkeyed)].
  - split; [done|]. exists []. rewrite app_nil_r. split; [done|].
    by intros Hne.
  - rewrite Hload in Hunkeyed. destruct (Hunkeyed Hstored) as [Hf Hraise].
    split; [done|]. exists (EvBalance capital :: new). split; [done|].
    intros Hfilled. apply Hraise. exact Hfilled.
Qed.

Lemma all_dicts_None items item :
  item ∈ items -> as_dict item = None -> all_dicts items = None.
Proof.
  intros Hin Hitem. induction items as [|v items IH];
    [by apply elem_of_nil in Hin|].
  apply elem_of_cons in Hin as [<-|Hin]; simpl.
  - by rewrite Hitem.
  - rewrite (IH Hin). by destruct (as_dict v).
Qed.

(** X24. One catalog entry that is not a dict ends the cycle with an
    exception before anything is ranked or traded: [filter_markets] calls
    [m.get] outside its [try] blocks.  The cycle has then only read the
    balance. *)
Theorem run_cycle_non_dict_item private_key wallet_address fuel
    (w w3 : World Exchange) ex1 ex2 capital items item :
  private_key <> EmptyString -> wallet_address <> EmptyString ->
  setup_client (exchange w) = (ex1, true) ->
  read_balance ex1 = (ex2, capital) ->
  is_Some (py_len (load_positions w)) ->
  fetch_markets fuel
    {| exchange := ex2; positions_file := positions_file w;
       trace := trace w ++ [EvBalance capital] |}
  = Some (w3, items) ->
  item ∈ items -> as_dict item = None ->
  run_cycle private_key wallet_address fuel w = RaisedBeforeTrading w3
  /\ trace w3 = trace w ++ [EvBalance capital]
  /\ positions_file w3 = positions_file w.
Proof.
  intros Hkey Hwallet Hsetup Hbal [n Hlen] Hfetch Hin Hitem.
  destruct (fetch_loop_world _ _ _ _ _ _ Hfetch) as [Hf3 Ht3].
  split; [|done].
  unfold run_cycle. rewrite !truthy_PStr by done. cbn [negb orb].
  rewrite Hsetup. cbn [negb]. unfold get_balance. simpl. rewrite Hbal.
  unfold emit, set_exchange. simpl.
  match goal with |- context [py_len (load_positions ?w2)] =>
    assert (load_positions w2 = load_positions w) as -> by done end.
  rewrite Hlen, Hfetch. unfold filter_markets_items.
  by rewrite (all_dicts_None _ _ Hin Hitem).
Qed.

(** X25. One of the five best opportunities whose question is neither a
    string nor a list (a null, a number, a bool, an object) ends the cycle
    with an exception before any trade: the log line slices the question.
    Nothing was ordered or saved. *)
Theorem run_cycle_unsliceable_question private_key wallet_address fuel
    (w w3 w4 : World Exchange) ex1 ex2 capital items ms opps opp :
  private_key <> EmptyString -> wallet_address <> EmptyString ->
  setup_client (exchange w) = (ex1, true) ->
  read_balance ex1 = (ex2, capital) ->
  is_Some (py_len (load_positions w)) ->
  fetch_markets fuel
    {| exchange := ex2; positions_file := positions_file w;
       trace := trace w ++ [EvBalance capital] |}
  = Some (w3, items) ->
  all_dicts items = Some ms ->
  find_opps (filter_markets (utc_now (exchange w3)) ms)
    (ledger_of (load_positions w) (filter_markets (utc_now (exchange w3)) ms))
    w3
  = (w4, opps) ->
  opp ∈ take 5 opps ->
  sliceable (default (PStr "Unknown") (market opp !! "question")) = false ->
  run_cycle private_key wallet_address fuel w = RaisedBeforeTrading w4
  /\ trace w4 = trace w ++ [EvBalance capital]
  /\ positions_file w4 = positions_file w.
Proof.
  intros Hkey Hwallet Hsetup Hbal [n Hlen] Hfetch Hms Hopps Hin Hbad.
  destruct (fetch_loop_world _ _ _ _ _ _ Hfetch) as [Hf3 Ht3].
  destruct (find_opps_world _ _ _ _ _ Hopps) as [Hf4 Ht4].
  cbn in Hf3, Ht3.
  split; [|split; congruence].
  unfold run_cycle. rewrite !truthy_PStr by done. cbn [negb orb].
  rewrite Hsetup. cbn [negb]. unfold get_balance. simpl. rewrite Hbal.
  unfold emit, set_exchange. simpl.
  match goal with |- context [py_len (load_positions ?w2)] =>
    assert (load_positions w2 = load_positions w) as -> by done end.
  rewrite Hlen, Hfetch. unfold filter_markets_items.
  rewrite Hms. cbn [mbind option_bind]. rewrite Hopps.
  assert (forallb log_line_ok (take 5 opps) = false) as ->; [|done].
  apply not_true_is_false. intros Hall.
  rewrite forallb_forall in Hall.
  apply list_elem_of_In in Hin. specialize (Hall _ Hin).
  unfold log_line_ok in Hall. by rewrite Hbad in Hall.
Qed.
End Bot.

(** * The development on concrete inputs *)

Arguments analyze_ob _ {_} _ _ _.
Arguments find_opps _ _ _ {_} _ _ _ _.
Arguments collect_opps _ _ _ {_} _ _ _ _.
Arguments place_trade {_} _ _ _ _.
Arguments load_positions _ {_} _.
Arguments save_positions {_} _ _ _.
Arguments trade_step {_} _ _ _ _ _ _.
Arguments run_trades {_} _ _ _ _ _ _.
Arguments execute_top {_} _ _ _ _ _ _ _ _.

(** C1, as stated, fails: one contract id and two labels are arrays of
    different lengths, and the resolver still fills the "yes" side. *)
Lemma get_token_ids_mismatch_counterexample :
  let market := market_of "['111']" "['Yes', 'No']" in
  json_loads_subset (jtext "['111']") = Some (PList [PStr "111"])
  /\ json_loads_subset (jtext "['Yes', 'No']")
     = Some (PList [PStr "Yes"; PStr "No"])
  /\ length [PStr "111"] <> length [PStr "Yes"; PStr "No"]
  /\ get_token_ids json_loads_subset demo_repr market
     = {| yes := Some "111"; no := None |}
  /\ get_token_ids json_loads_subset demo_repr market <> null_ref.
Proof.
  repeat split; try reflexivity; try (vm_compute; discriminate).
Qed.

(** C1 (amended) applied: a text that does not decode gives the all-null
    reference; arrays of lengths 3 and 2 give the result of their common
    prefix of length 2. *)
Lemma get_token_ids_malformed_or_mismatched_witness :
  get_token_ids json_loads_subset demo_repr (market_of "['111'" "['Yes']")
  = null_ref
  /\ get_token_ids json_loads_subset demo_repr
       (market_of "['111', '222', '333']" "['Yes', 'No']")
     = {| yes := Some "111"; no := Some "222" |}.
Proof.
  split.
  - apply (proj1 (get_token_ids_malformed_or_mismatched json_loads_subset demo_repr)).
    right; right; left. vm_compute. reflexivity.
  - rewrite (proj2 (get_token_ids_malformed_or_mismatched json_loads_subset demo_repr)
               (market_of "['111', '222', '333']" "['Yes', 'No']")
               (jtext "['111', '222', '333']") (jtext "['Yes', 'No']")
               [PStr "111"; PStr "222"; PStr "333"] [PStr "Yes"; PStr "No"]);
      [reflexivity| vm_compute; reflexivity | vm_compute; reflexivity
      | vm_compute; discriminate | vm_compute; discriminate
      | vm_compute; reflexivity | vm_compute; reflexivity].
Defined.

(** C2, as stated, fails: with two labels matching "yes", the first has
    contract id 111 but the resolver answers 333, the id of the last. *)
Lemma get_token_ids_first_match_counterexample :
  let market := market_of "['111', '222', '333']" "['Yes', 'No', 'YES']" in
  json_loads_subset (jtext "['111', '222', '333']")
  = Some (PList [PStr "111"; PStr "222"; PStr "333"])
  /\ json_loads_subset (jtext "['Yes', 'No', 'YES']")
     = Some (PList [PStr "Yes"; PStr "No"; PStr "YES"])
  /\ lower "Yes" = "yes"
  /\ lower "YES" = "yes"
  /\ yes (get_token_ids json_loads_subset demo_repr market) = Some "333"
  /\ yes (get_token_ids json_loads_subset demo_repr market) <> Some "111".
Proof.
  repeat split; try reflexivity; try (vm_compute; discriminate).
Qed.

(** C2 (amended) applied to the same market: the label at index 2 is the
    last one that lowercases to "yes". *)
Lemma get_token_ids_last_match_wins_witness :
  yes (get_token_ids json_loads_subset demo_repr
         (market_of "['111', '222', '333']" "['Yes', 'No', 'YES']"))
  = Some "333".
Proof.
  apply (proj1 (get_token_ids_last_match_wins json_loads_subset demo_repr
           (market_of "['111', '222', '333']" "['Yes', 'No', 'YES']")
           (jtext "['111', '222', '333']") (jtext "['Yes', 'No', 'YES']")
           [PStr "111"; PStr "222"; PStr "333"] ["Yes"; "No"; "YES"]
           ltac:(vm_compute; reflexivity) ltac:(vm_compute; reflexivity)
           ltac:(vm_compute; discriminate) ltac:(vm_compute; discriminate)
           ltac:(vm_compute; reflexivity) ltac:(vm_compute; reflexivity))
         2 "YES" (PStr "333")); [reflexivity|reflexivity|reflexivity|].
  intros j label' Hj Hlab Hlt. simpl in Hlt. lia.
Defined.




(** C6, as stated, fails: on the three demo markets the ranker returns
    the contracts 222, 555, 444; the first two have the same yield, so the
    yields are not strictly descending. *)
Lemma find_opps_ties_counterexample :
  map (fun o => no (_tids o))
    (snd (collect_opps json_loads_subset demo_repr float_of_decimal
            demo_get_order_book demo_markets ∅ demo_world))
  = [Some "444"; Some "222"; Some "555"]
  /\ map (fun o => no (_tids o))
       (snd (find_opps json_loads_subset demo_repr float_of_decimal
               demo_get_order_book demo_markets ∅ demo_world))
     = [Some "222"; Some "555"; Some "444"]
  /\ (exists a b rest,
        snd (find_opps json_loads_subset demo_repr float_of_decimal
               demo_get_order_book demo_markets ∅ demo_world)
        = a :: b :: rest
        /\ (_yield a == _yield b)%Q)
  /\ ~ StronglySorted (fun a b => (_yield b < _yield a)%Q)
        (snd (find_opps json_loads_subset demo_repr float_of_decimal
                demo_get_order_book demo_markets ∅ demo_world)).
Proof.
  assert (exists a b rest,
             snd (find_opps json_loads_subset demo_repr float_of_decimal
                    demo_get_order_book demo_markets ∅ demo_world)
             = a :: b :: rest
             /\ (_yield a == _yield b)%Q) as Hties.
  { vm_compute. do 3 eexists. split; reflexivity. }
  split; [vm_compute; reflexivity|].
  split; [vm_compute; reflexivity|].
  split; [exact Hties|].
  destruct Hties as (a & b & rest & -> & Heq).
  intros Hsorted. inversion Hsorted as [|? ? _ Hall]; subst.
  inversion Hall as [|? ? Hlt _]; subst.
  rewrite Heq in Hlt. by apply (Qlt_irrefl (_yield b)).
Qed.

(** C7 applied to the opportunity on contract 222 at price 0.95: with
    capital 50 one order of size 5 / 0.95 is submitted and its id returned;
    with capital 2 nothing is submitted. *)
Lemma place_trade_sizing_and_skip_witness :
  place_trade demo_submit_order demo_opp 50 demo_world
  = Some ({| exchange := 1; positions_file := Absent;
             trace := [EvOrder {| token_id := Some "222"; o_price := 0.95;
                                  o_size := (stake_of 50 / 0.95)%Q;
                                  side := "BUY"; fee_rate_bps := 0 |}
                         (Some (PStr "order-0"))] |},
          PStr "order-0")
  /\ place_trade demo_submit_order demo_opp 2 demo_world
     = Some (demo_world, PNone).
Proof.
  assert (~ (_price demo_opp == 0)%Q) as Hprice by (vm_compute; discriminate).
  split.
  - destruct (place_trade_sizing_and_skip nat demo_submit_order
                demo_opp 50 demo_world Hprice) as (_ & _ & Hsubmit & _).
    destruct (Hsubmit ltac:(vm_compute; discriminate))
      as (ex & result & Hsub & Hplace).
    injection Hsub as <- <-. exact Hplace.
  - exact (proj2 (proj2 (proj2 (proj2 (proj2 (proj2
             (place_trade_sizing_and_skip nat demo_submit_order
                demo_opp 2 demo_world Hprice))))))).
Defined.

(** C8 applied: a ledger text that decodes is returned decoded, a broken
    text and a missing file give the empty mapping. *)
Lemma load_positions_total_witness :
  (exists d,
      load_positions json_loads_subset
        {| exchange := 0;
           positions_file := Content (jtext "{'222': {'order_id': 'order-0'}}");
           trace := [] |}
      = PDict d
      /\ d !! "222" = Some (PDict (<["order_id" := PStr "order-0"]> ∅)))
  /\ load_positions json_loads_subset
       {| exchange := 0; positions_file := Content (jtext "{'222': ");
          trace := [] |}
     = PDict ∅
  /\ load_positions json_loads_subset demo_world = PDict ∅.
Proof.
  split; [|split].
  - eexists. split.
    + apply (proj1 (load_positions_total json_loads_subset nat _)
               (jtext "{'222': {'order_id': 'order-0'}}"));
        [reflexivity | vm_compute; reflexivity].
    + vm_compute. reflexivity.
  - apply (proj1 (proj2 (proj2 (load_positions_total json_loads_subset nat _)))
             (jtext "{'222': ")); [reflexivity | vm_compute; reflexivity].
  - apply (proj1 (proj2 (load_positions_total json_loads_subset nat _))).
    reflexivity.
Defined.

(** The ranking of the three demo markets, executed with capital 100:
    three orders go out in rank order and all three are filled. *)
Example execute_top_demo_run :
  option_map
    (fun st => (submitted (trace (world st)), filled (trace (world st)),
                trades st))
    (execute_top demo_submit_order demo_read_balance demo_now_isoformat
       demo_json_dumps
       (snd (find_opps json_loads_subset demo_repr float_of_decimal
               demo_get_order_book demo_markets ∅ demo_world))
       ∅ 100 demo_world)
  = Some ([Some "222"; Some "555"; Some "444"],
          [Some "222"; Some "555"; Some "444"], 3).
Proof. vm_compute. reflexivity. Qed.


(** Two catalog entries for the same contracts are both ranked, yet the
    loop trades contract 222 once: the second pass finds it in the
    ledger. *)
Example execute_top_demo_twice :
  map (fun opp => no (_tids opp))
    (snd (find_opps json_loads_subset demo_repr float_of_decimal
            demo_get_order_book demo_markets_twice ∅ demo_world))
  = [Some "222"; Some "222"]
  /\ option_map
       (fun st => (submitted (trace (world st)), filled (trace (world st)),
                   trades st))
       (execute_top demo_submit_order demo_read_balance demo_now_isoformat
          demo_json_dumps
          (snd (find_opps json_loads_subset demo_repr float_of_decimal
                  demo_get_order_book demo_markets_twice ∅ demo_world))
          ∅ 100 demo_world)
     = Some ([Some "222"], [Some "222"], 1).
Proof. split; vm_compute; reflexivity. Qed.

(** C10 applied to that run: the successful trades are on pairwise
    different contract ids. *)
Lemma execute_top_one_position_per_contract_witness :
  exists st new,
    execute_top demo_submit_order demo_read_balance demo_now_isoformat
      demo_json_dumps
      (snd (find_opps json_loads_subset demo_repr float_of_decimal
              demo_get_order_book demo_markets_twice ∅ demo_world))
      ∅ 100 demo_world = Some st
    /\ trace (world st) = trace demo_world ++ new
    /\ NoDup (filled new).
Proof.
  assert (Forall (fun opp => ~ (_price opp == 0)%Q)
            (snd (find_opps json_loads_subset demo_repr float_of_decimal
                    demo_get_order_book demo_markets_twice ∅ demo_world)))
    as Hprices.
  { vm_compute. repeat (constructor; [intros H; discriminate H|]). constructor. }
  destruct (execute_top_one_position_per_contract nat demo_submit_order
              demo_read_balance demo_now_isoformat demo_json_dumps _ ∅ 100
              demo_world Hprices)
    as (st & new & Hrun & Htr & Hnodup & _).
  exists st, new. split; [exact Hrun|]. split; [exact Htr|exact Hnodup].
Defined.

(** * The further properties on concrete inputs *)

Arguments fetch_markets {_} _ _ _.
Arguments outcome_world {_} _.
Arguments MissingCredentials {_} _.
Arguments SetupFailed {_} _.
Arguments StillFetching {_}.
Arguments RaisedBeforeTrading {_} _.
Arguments RaisedInTrading {_}.
Arguments RaisedOnRecord {_} _.
Arguments CycleDone {_} _ _.

(** [run_cycle] against the small exchange serving [catalog]. *)
Abbreviation demo_run_cycle catalog :=
  (run_cycle json_loads_subset demo_repr float_of_decimal fromisoformat_subset
     nat demo_get_order_book demo_submit_order demo_read_balance
     demo_now_isoformat demo_json_dumps (demo_http_get catalog)
     demo_setup_client demo_utc_now "key" "0xwallet" 5).

(** Three cycles on the small exchange: a plain one fills three orders;
    one whose ledger file records contract 222 orders the other two; one
    whose ledger file is an empty array raises after its first fill. *)
Example run_cycle_demo_runs :
  (exists w', demo_run_cycle demo_catalog demo_world = CycleDone 3 w'
              /\ submitted (trace w') = [Some "222"; Some "555"; Some "444"])
  /\ (exists w', demo_run_cycle demo_catalog demo_world_held = CycleDone 2 w'
                 /\ submitted (trace w') = [Some "555"; Some "444"])
  /\ (exists w', demo_run_cycle demo_catalog demo_world_array
                 = RaisedOnRecord w'
                 /\ submitted (trace w') = [Some "222"]
                 /\ positions_file w' = Content "[]").
Proof.
  repeat split; eexists; (split; [vm_compute; reflexivity|]);
    try split; vm_compute; reflexivity.
Qed.


(** X2 applied: in ['Yes', 5, 'No'] the number ends the loop, so the "no"
    side stays null although a later label says No. *)
Lemma get_token_ids_stops_at_non_string_witness :
  get_token_ids json_loads_subset demo_repr
    (market_of "['111', '222', '333']" "['Yes', 5, 'No']")
  = {| yes := Some "111"; no := None |}.
Proof.
  rewrite (get_token_ids_stops_at_non_string json_loads_subset demo_repr
             (market_of "['111', '222', '333']" "['Yes', 5, 'No']")
             (jtext "['111', '222', '333']") (jtext "['Yes', 5, 'No']")
             [PStr "111"; PStr "222"; PStr "333"]
             [PStr "Yes"] (PInt 5) [PStr "No"]);
    [reflexivity | vm_compute; reflexivity | vm_compute; reflexivity
    | vm_compute; discriminate | vm_compute; discriminate
    | vm_compute; reflexivity | vm_compute; reflexivity
    | reflexivity | simpl; lia].
Defined.

(** X4 applied: the ask priced "n/a" voids the book. *)
Lemma analyze_ob_malformed_level_witness :
  snd (analyze_ob float_of_decimal demo_get_order_book_garbled "222" demo_world)
  = None.
Proof.
  apply (analyze_ob_malformed_level float_of_decimal nat
           demo_get_order_book_garbled "222" demo_world 0
           {| asks := [level "0.95" "100"; level "n/a" "10"];
              bids := [level "0.94" "100"] |}
           (level "n/a" "10")).
  - reflexivity.
  - left. apply elem_of_cons. right. apply elem_of_cons. by left.
  - left. vm_compute. reflexivity.
Defined.


(** X6 applied at the ask 0.95. *)
Lemma find_opps_yield_range_witness :
  Qle_bool MIN_YIELD ((1 - 0.95) / 0.95) = true.
Proof.
  apply (proj1 (find_opps_yield_range json_loads_subset demo_repr
                  float_of_decimal nat demo_get_order_book demo_markets ∅
                  demo_world) 0.95%Q); vm_compute; discriminate.
Defined.

(** X7 applied: with the three "no" contracts in the ledger, the ranker
    returns nothing and the world is the one it was given. *)
Lemma find_opps_held_untouched_witness :
  find_opps json_loads_subset demo_repr float_of_decimal demo_get_order_book
    demo_markets
    (<[Some "222" := PNone]> (<[Some "444" := PNone]> (<[Some "555" := PNone]> ∅)))
    demo_world
  = (demo_world, []).
Proof.
  apply (find_opps_held_untouched json_loads_subset demo_repr float_of_decimal
           nat demo_get_order_book).
  repeat (constructor; [vm_compute; right; eexists; reflexivity|]).
  constructor.
Defined.

(** X10 applied: capital 3 trades nothing, capital 50 submits an order. *)
Lemma place_trade_capital_threshold_witness :
  place_trade demo_submit_order demo_opp 3 demo_world = Some (demo_world, PNone)
  /\ exists ex result,
      place_trade demo_submit_order demo_opp 50 demo_world
      = Some ({| exchange := ex; positions_file := Absent;
                 trace := [EvOrder (order_for demo_opp 50) result] |},
              default PNone result).
Proof.
  assert (~ (_price demo_opp == 0)%Q) as Hprice by (vm_compute; discriminate).
  split.
  - apply (proj1 (place_trade_capital_threshold nat demo_submit_order
                    demo_opp 3 demo_world Hprice)).
    vm_compute. reflexivity.
  - apply (proj2 (place_trade_capital_threshold nat demo_submit_order
                    demo_opp 50 demo_world Hprice)).
    vm_compute. discriminate.
Defined.



(** X13 applied: with capital 3 the loop over the demo opportunity ends in
    the state it started in. *)
Lemma execute_top_low_capital_witness :
  execute_top demo_submit_order demo_read_balance demo_now_isoformat
    demo_json_dumps [demo_opp] ∅ 3 demo_world
  = Some {| positions := ∅; balance := 3; trades := 0; world := demo_world |}.
Proof.
  apply (execute_top_low_capital nat demo_submit_order demo_read_balance
           demo_now_isoformat demo_json_dumps [demo_opp] ∅ 3 demo_world).
  - vm_compute. reflexivity.
  - constructor; [vm_compute; discriminate|constructor].
Defined.

(** X14 applied to the loop over the demo opportunity with capital 100. *)
Lemma execute_top_ledger_growth_witness :
  exists st,
    execute_top demo_submit_order demo_read_balance demo_now_isoformat
      demo_json_dumps [demo_opp] ∅ 100 demo_world = Some st
    /\ trades st <= 3
    /\ trades st <= length [demo_opp]
    /\ size (positions st) = size (∅ : Ledger) + trades st.
Proof.
  apply (execute_top_ledger_growth nat demo_submit_order demo_read_balance
           demo_now_isoformat demo_json_dumps [demo_opp] ∅ 100 demo_world).
  constructor; [vm_compute; discriminate|constructor].
Defined.

(** X15 applied: with contract 222 in the ledger the loop over the demo
    opportunity submits nothing for it. *)
Lemma execute_top_never_orders_held_witness :
  exists st new,
    execute_top demo_submit_order demo_read_balance demo_now_isoformat
      demo_json_dumps [demo_opp] (<[Some "222" := PNone]> ∅) 100 demo_world
    = Some st
    /\ trace (world st) = trace demo_world ++ new
    /\ Some "222" ∉ submitted new.
Proof.
  destruct (execute_top_never_orders_held nat demo_submit_order
              demo_read_balance demo_now_isoformat demo_json_dumps [demo_opp]
              (<[Some "222" := PNone]> ∅) 100 demo_world)
    as (st & new & Hrun & Htr & Hheld).
  { constructor; [vm_compute; discriminate|constructor]. }
  exists st, new. split; [exact Hrun|]. split; [exact Htr|].
  apply Hheld. exists PNone. apply lookup_insert_eq.
Defined.

(** X17 applied to the loop over the demo opportunity with capital 100. *)
Lemma execute_top_then_load_witness :
  exists st new,
    execute_top demo_submit_order demo_read_balance demo_now_isoformat
      demo_json_dumps [demo_opp] ∅ 100 demo_world = Some st
    /\ trace (world st) = trace demo_world ++ new
    /\ (filled new <> [] ->
        load_positions json_loads_subset (world st)
        = default (PDict ∅)
            (json_loads_subset (demo_json_dumps (positions st))))
    /\ (filled new = [] ->
        load_positions json_loads_subset (world st)
        = load_positions json_loads_subset demo_world).
Proof.
  apply (execute_top_then_load json_loads_subset nat demo_submit_order
           demo_read_balance demo_now_isoformat demo_json_dumps [demo_opp] ∅
           100 demo_world).
  constructor; [vm_compute; discriminate|constructor].
Defined.

(** X18 applied: the catalog of 230 entries comes back whole after three
    requests. *)
Lemma fetch_markets_reassembles_witness :
  exists w',
    fetch_markets (demo_http_get demo_big_catalog) 3 demo_world
    = Some (w', demo_big_catalog)
    /\ positions_file w' = positions_file demo_world
    /\ trace w' = trace demo_world.
Proof.
  apply (fetch_markets_reassembles nat (demo_http_get demo_big_catalog)
           demo_big_catalog 3 demo_world).
  - intros ex o. eexists. split; reflexivity.
  - vm_compute. lia.
Defined.

(** X19 applied: when the catalog fails from offset 200 on, the first 200
    entries come back. *)
Lemma fetch_markets_partial_on_failure_witness :
  exists w',
    fetch_markets (demo_http_get_flaky demo_big_catalog) 3 demo_world
    = Some (w', take (100 * 2) demo_big_catalog)
    /\ positions_file w' = positions_file demo_world
    /\ trace w' = trace demo_world.
Proof.
  apply (fetch_markets_partial_on_failure nat
           (demo_http_get_flaky demo_big_catalog) demo_big_catalog 2 3
           demo_world).
  - intros ex i Hi. eexists. unfold demo_http_get_flaky.
    destruct (Nat.ltb_spec (100 * i) 200); [|lia]. split; reflexivity.
  - intros ex. reflexivity.
  - vm_compute. lia.
  - lia.
Defined.

(** X20 applied: against a catalog that repeats its first page the loop is
    still running after 50 requests. *)
Lemma fetch_markets_no_page_limit_witness :
  fetch_markets (demo_http_get_endless demo_big_catalog) 50 demo_world = None.
Proof.
  apply (fetch_markets_no_page_limit nat
           (demo_http_get_endless demo_big_catalog) 50 demo_world).
  intros ex o. do 2 eexists. split; [reflexivity|]. split; [reflexivity|].
  vm_compute. lia.
Defined.

(** X21 applied to the plain demo cycle. *)
Lemma run_cycle_at_most_three_orders_witness :
  exists w' new,
    outcome_world (demo_run_cycle demo_catalog demo_world) = Some w'
    /\ trace w' = trace demo_world ++ new
    /\ length (submitted new) <= 3.
Proof.
  assert (exists w',
             outcome_world (demo_run_cycle demo_catalog demo_world) = Some w')
    as [w' Hw'] by (eexists; vm_compute; reflexivity).
  destruct (proj2 (run_cycle_at_most_three_orders json_loads_subset demo_repr
                     float_of_decimal fromisoformat_subset nat
                     demo_get_order_book demo_submit_order demo_read_balance
                     demo_now_isoformat demo_json_dumps
                     (demo_http_get demo_catalog) demo_setup_client
                     demo_utc_now "key" "0xwallet" 5 demo_world) w' Hw')
    as (new & Htr & Hlen).
  exists w', new. split; [exact Hw'|]. split; [exact Htr|exact Hlen].
Defined.

(** X22 applied: the cycle whose ledger file records contract 222 submits
    no order for it. *)
Lemma run_cycle_never_orders_persisted_witness :
  exists w' new,
    outcome_world (demo_run_cycle demo_catalog demo_world_held) = Some w'
    /\ trace w' = trace demo_world_held ++ new
    /\ Some "222" ∉ submitted new.
Proof.
  assert (exists w',
             outcome_world (demo_run_cycle demo_catalog demo_world_held)
             = Some w')
    as [w' Hw'] by (eexists; vm_compute; reflexivity).
  destruct (run_cycle_never_orders_persisted json_loads_subset demo_repr
              float_of_decimal fromisoformat_subset nat
              demo_get_order_book demo_submit_order demo_read_balance
              demo_now_isoformat demo_json_dumps
              (demo_http_get demo_catalog) demo_setup_client
              demo_utc_now "key" "0xwallet" 5 demo_world_held w'
              (jtext "{'222': {'order_id': 'order-0'}}")
              (<["222" := PDict (<["order_id" := PStr "order-0"]> ∅)]> ∅)
              ltac:(reflexivity) ltac:(vm_compute; reflexivity) Hw')
    as (new & Htr & Hheld).
  exists w', new. split; [exact Hw'|]. split; [exact Htr|].
  apply Hheld. eexists. apply lookup_insert_eq.
Defined.

(** X23 applied: the cycle whose ledger file is an empty array leaves the
    file as it was. *)
Lemma run_cycle_unkeyed_ledger_witness :
  exists w',
    outcome_world (demo_run_cycle demo_catalog demo_world_array) = Some w'
    /\ positions_file w' = positions_file demo_world_array.
Proof.
  assert (exists w',
             outcome_world (demo_run_cycle demo_catalog demo_world_array)
             = Some w')
    as [w' Hw'] by (eexists; vm_compute; reflexivity).
  destruct (run_cycle_unkeyed_ledger json_loads_subset demo_repr
              float_of_decimal fromisoformat_subset nat
              demo_get_order_book demo_submit_order demo_read_balance
              demo_now_isoformat demo_json_dumps
              (demo_http_get demo_catalog) demo_setup_client
              demo_utc_now "key" "0xwallet" 5 demo_world_array w'
              "[]" (PList [])
              ltac:(reflexivity) ltac:(vm_compute; reflexivity)
              ltac:(left; eexists; reflexivity) Hw')
    as (Hfile & _).
  exists w'. split; [exact Hw'|exact Hfile].
Defined.

(** X24 applied: the catalog entry "maintenance" ends the cycle before
    trading; only the balance was read. *)
Lemma run_cycle_non_dict_item_witness :
  exists w3,
    demo_run_cycle demo_catalog_notice demo_world = RaisedBeforeTrading w3
    /\ trace w3 = trace demo_world ++ [EvBalance 100]
    /\ positions_file w3 = positions_file demo_world.
Proof.
  assert (exists w3,
             fetch_markets (demo_http_get demo_catalog_notice) 5
               {| exchange := 0; positions_file := positions_file demo_world;
                  trace := trace demo_world ++ [EvBalance 100] |}
             = Some (w3, demo_catalog_notice))
    as [w3 Hfetch] by (eexists; vm_compute; reflexivity).
  exists w3.
  apply (run_cycle_non_dict_item json_loads_subset demo_repr
           float_of_decimal fromisoformat_subset nat
           demo_get_order_book demo_submit_order demo_read_balance
           demo_now_isoformat demo_json_dumps
           (demo_http_get demo_catalog_notice) demo_setup_client
           demo_utc_now "key" "0xwallet" 5 demo_world w3 0 0 100
           demo_catalog_notice (PStr "maintenance")).
  - discriminate.
  - discriminate.
  - reflexivity.
  - vm_compute. reflexivity.
  - eexists. vm_compute. reflexivity.
  - exact Hfetch.
  - unfold demo_catalog_notice. apply elem_of_app. right.
    apply elem_of_cons. by left.
  - reflexivity.
Defined.

(** X25 applied: the market whose question is null is ranked first, and
    the cycle ends before trading it. *)
Lemma run_cycle_unsliceable_question_witness :
  exists w4,
    demo_run_cycle demo_catalog_null_question demo_world
    = RaisedBeforeTrading w4
    /\ trace w4 = trace demo_world ++ [EvBalance 100]
    /\ positions_file w4 = positions_file demo_world.
Proof.
  pose (ranked :=
          find_opps json_loads_subset demo_repr float_of_decimal
            demo_get_order_book
            (filter_markets float_of_decimal fromisoformat_subset
               (demo_utc_now (exchange demo_world_funded))
               [demo_market_null_question])
            (ledger_of json_loads_subset demo_repr
               (load_positions json_loads_subset demo_world)
               (filter_markets float_of_decimal fromisoformat_subset
                  (demo_utc_now (exchange demo_world_funded))
                  [demo_market_null_question]))
            demo_world_funded).
  exists (fst ranked).
  apply (run_cycle_unsliceable_question json_loads_subset demo_repr
           float_of_decimal fromisoformat_subset nat
           demo_get_order_book demo_submit_order demo_read_balance
           demo_now_isoformat demo_json_dumps
           (demo_http_get demo_catalog_null_question) demo_setup_client
           demo_utc_now "key" "0xwallet" 5 demo_world demo_world_funded
           (fst ranked) 0 0 100
           demo_catalog_null_question [demo_market_null_question]
           (snd ranked) (hd demo_opp (snd ranked))).
  - discriminate.
  - discriminate.
  - reflexivity.
  - vm_compute. reflexivity.
  - eexists. vm_compute. reflexivity.
  - vm_compute. reflexivity.
  - reflexivity.
  - subst ranked. by destruct (find_opps _ _ _ _ _ _ _).
  - assert (snd ranked = [hd demo_opp (snd ranked)]) as ->
      by (vm_compute; reflexivity).
    apply elem_of_cons. by left.
  - vm_compute. reflexivity.
Defined.
